(** * BatchExportMeshes: a model of the Blender batch-export add-on

    The add-on (src/BatchExportMeshes.py) consists of the operator
    [BatchExport], whose [execute] method turns the chosen file path into
    a directory and validates it, and of the routine
    [batch_export_meshes], which walks over the selected objects, exports
    each mesh or armature with a host exporter and restores the selection.

    The Blender scene is a store of objects addressed by reference (the
    position of the object in the store); the script is written in a
    state-and-exception monad over that store.  What belongs to the host
    (Python's [os.path], [bpy.path.clean_name], the exporters' verdicts)
    is gathered in the record [Host]. *)

From Stdlib Require Import ZArith Ascii String SpecFloat.
From stdpp Require Import base list strings.

Local Open Scope string_scope.
Local Open Scope Z_scope.

(** ** Python strings *)

Module Py.

(** [s.rfind(sub)]: the highest index at which [sub] occurs in [s], or
    [-1] when it does not occur. *)
Fixpoint rfind_from (sub s : string) (i acc : Z) : Z :=
  let acc' := if String.prefix sub s then i else acc in
  match s with
  | EmptyString => acc'
  | String _ rest => rfind_from sub rest (i + 1) acc'
  end.

Definition rfind (s sub : string) : Z := rfind_from sub s 0 (-1).

(** [s[:k]]: a negative bound counts from the end of the string. *)
Definition slice_to (s : string) (k : Z) : string :=
  let n := Z.of_nat (String.length s) in
  let k' := if k <? 0 then Z.max 0 (n + k) else k in
  String.substring 0 (Z.to_nat k') s.

(** Truthiness of a [str]: the empty string is false. *)
Definition truthy (s : string) : bool :=
  match s with
  | EmptyString => false
  | String _ _ => true
  end.

End Py.

(** ** Data model *)

(** [mathutils.Vector] with three float components. *)
Record Vector := mkVector { vx : spec_float; vy : spec_float; vz : spec_float }.

(** [mathutils.Vector((0,0,0))] *)
Definition origin : Vector :=
  mkVector (S754_zero false) (S754_zero false) (S754_zero false).

(** A scene object: what the script reads and writes of [bpy.types.Object]. *)
Record Object := mkObject {
  name : string;
  type : string;
  location : Vector;
  select : bool
}.

(** An object reference is the position of the object in the store. *)
Abbreviation ref := nat (only parsing).

(** The part of [bpy.context] and [bpy.data] the script touches. *)
Record Scene := mkScene {
  objects : list Object;
  active : option ref;        (* view_layer.objects.active *)
  data_filepath : string;     (* bpy.data.filepath, empty when unsaved *)
  mode : string               (* bpy.context.mode: "OBJECT", "EDIT_MESH", ... *)
}.

(** The host exporters the script calls. *)
Inductive Exporter := export_scene_fbx | export_scene_obj | export_scene_gltf.

(** One invocation of a host exporter: its keyword arguments and the
    scene it sees when it is called. *)
Record ExportCall := mkExportCall {
  exporter : Exporter;
  call_filepath : string;
  use_selection : bool;
  export_format : option string;
  scene_at_call : Scene
}.

Inductive exn :=
  | Exception (msg : string)
  | RuntimeError (msg : string)
  | ReferenceError (msg : string).

(** The state the script runs in.  [exported] lists the exporter
    invocations, oldest first; [reports] the messages of [self.report];
    [history] every scene produced by a mutation, newest first. *)
Record World := mkWorld {
  scene : Scene;
  exported : list ExportCall;
  reports : list (string * string);
  history : list Scene
}.

Definition init_world (sc : Scene) : World := mkWorld sc [] [] [].

(** What the script takes from its host. *)
Record Host := mkHost {
  os_path_isdir : string → bool;
  os_path_dirname : string → string;
  os_path_join : string → string → string;
  clean_name : string → string;            (* bpy.path.clean_name *)
  exporter_finishes : ExportCall → bool    (* false: the exporter raises *)
}.

(** The properties of the operator [BatchExport]. *)
Record BatchExport := mkBatchExport {
  filepath : string;
  freeze_locations : bool;
  mesh_name_prefix : string;
  file_type : string
}.

(** The items of the [file_type] enum property. *)
Definition file_type_items : list string := ["FBX"; "GLTF"; "OBJ"; "DAE"].

(** ** The monad of scripts *)

Inductive Outcome (A : Type) :=
  | Ok (a : A)
  | Raise (e : exn).
Arguments Ok {A} a.
Arguments Raise {A} e.

Definition M (A : Type) : Type := World → Outcome A * World.

Definition ret {A} (a : A) : M A := λ w, (Ok a, w).

Definition bind {A B} (k : A → M B) (c : M A) : M B :=
  λ w, match c w with
       | (Ok a, w') => k a w'
       | (Raise e, w') => (Raise e, w')
       end.

Definition raise {A} (e : exn) : M A := λ w, (Raise e, w).

#[global] Instance M_ret : MRet M := @ret.
#[global] Instance M_bind : MBind M := @bind.

(** [for x in l: body x] *)
Fixpoint for_each {A} (l : list A) (body : A → M unit) : M unit :=
  match l with
  | [] => ret tt
  | x :: l' => body x ;; for_each l' body
  end.

(** ** Scene primitives *)

Definition set_select (b : bool) (o : Object) : Object :=
  mkObject (name o) (type o) (location o) b.

Definition set_location (v : Vector) (o : Object) : Object :=
  mkObject (name o) (type o) v (select o).

Definition with_objects (f : list Object → list Object) (s : Scene) : Scene :=
  mkScene (f (objects s)) (active s) (data_filepath s) (mode s).

Definition with_active (a : option ref) (s : Scene) : Scene :=
  mkScene (objects s) a (data_filepath s) (mode s).

(** A mutation replaces the scene and leaves a trace in [history]. *)
Definition commit (f : Scene → Scene) (w : World) : World :=
  mkWorld (f (scene w)) (exported w) (reports w) (f (scene w) :: history w).

Definition mutate (f : Scene → Scene) : M unit := λ w, (Ok tt, commit f w).

Definition get_scene : M Scene := λ w, (Ok (scene w), w).

(** Dereferencing: a reference to an object that is gone raises. *)
Definition deref (r : ref) : M Object :=
  s ← get_scene;
  match objects s !! r with
  | Some o => ret o
  | None => raise (ReferenceError "StructRNA of type Object has been removed")
  end.

(** [bpy.context.selected_objects] *)
Fixpoint selected_from (k : nat) (l : list Object) : list ref :=
  match l with
  | [] => []
  | o :: l' =>
      if select o then k :: selected_from (S k) l' else selected_from (S k) l'
  end.

Definition selected_objects (s : Scene) : list ref := selected_from 0 (objects s).

(** What a [bpy.ops] call raises when the operator's poll rejects the
    context. *)
Definition poll_failed : exn :=
  RuntimeError "Operator bpy.ops.object.select_all.poll() failed, context is incorrect".

(** [bpy.ops.object.select_all(action='DESELECT')]: the operator polls the
    context first and raises outside object mode, before it changes
    anything. *)
Definition select_all_DESELECT : M unit :=
  s ← get_scene;
  if (mode s =? "OBJECT")%string
  then mutate (with_objects (fmap (set_select false)))
  else raise poll_failed.

(** [obj.select_set(b)] *)
Definition select_set (r : ref) (b : bool) : M unit :=
  deref r ;; mutate (with_objects (alter (set_select b) r)).

(** [obj.location = v] *)
Definition assign_location (r : ref) (v : Vector) : M unit :=
  deref r ;; mutate (with_objects (alter (set_location v) r)).

(** [view_layer.objects.active = a] *)
Definition assign_active (a : option ref) : M unit := mutate (with_active a).

(** [self.report({level}, msg)] *)
Definition report (level msg : string) : M unit :=
  λ w, (Ok tt, mkWorld (scene w) (exported w) (reports w ++ [(level, msg)]) (history w)).

(** ** The script *)

Section Script.

Variable h : Host.

(** The separator [execute] looks for: one backslash. *)
Definition backslash : string := String (ascii_of_nat 92) "".

(** [execute], lines 63-68: "removes the file part from the full filepath". *)
Definition execute_directory (filepath : string) : string :=
  let directory := filepath in
  let last_slash := Py.rfind directory backslash in
  if negb (last_slash =? -1)%Z then Py.slice_to directory last_slash else directory.

(** [batch_export_meshes], lines 80-88: the directory to export into. *)
Definition resolve_basedir (directory : string) : M string :=
  s ← get_scene;
  let basedir :=
    if negb (Py.truthy directory) || (directory =? "")%string
    then os_path_dirname h (data_filepath s)
    else directory in
  if negb (Py.truthy basedir)
  then raise (Exception "Blend file is not saved")
  else ret basedir.

(** A call [bpy.ops.export_scene.<e>(filepath=path, use_selection=True, ...)]:
    the exporter sees the current scene and writes the file [path]; it
    either finishes or raises, and leaves the scene as it found it.  The
    invocation is recorded whether or not it finishes. *)
Definition invoke (e : Exporter) (path : string) (fmt : option string) : M unit :=
  λ w, let call := mkExportCall e path true fmt (scene w) in
       let w' := mkWorld (scene w) (exported w ++ [call]) (reports w) (history w) in
       if exporter_finishes h call
       then (Ok tt, w')
       else (Raise (RuntimeError "export operator failed"), w').

(** Lines 123-131: [match file_type]; no case matches an unknown format. *)
Definition export_as (file_type fn : string) : M unit :=
  if (file_type =? "FBX")%string then
    invoke export_scene_fbx (fn ++ ".fbx") None
  else if (file_type =? "OBJ")%string then
    invoke export_scene_obj (fn ++ ".obj") None
  else if (file_type =? "GLTF")%string then
    invoke export_scene_gltf (fn ++ ".gltf") (Some "GLTF_SEPARATE")
  else if (file_type =? "DAE")%string then
    invoke export_scene_fbx (fn ++ ".dae") None
  else ret tt.

(** Lines 114-118: the name of the file, without its extension. *)
Definition export_name (mesh_name_prefix obj_name : string) : string :=
  let name := clean_name h obj_name in
  if Py.truthy mesh_name_prefix then mesh_name_prefix ++ name else name.

(** Lines 98-136: the body of the loop over the selection. *)
Definition loop_body (basedir : string) (freeze_locations : bool)
    (file_type mesh_name_prefix : string) (obj : ref) : M unit :=
  o ← deref obj;
  if negb (type o =? "MESH")%string && negb (type o =? "ARMATURE")%string
  then ret tt (* continue *)
  else
    select_set obj true ;;
    o ← deref obj;
    let saved_location := location o in
    (if freeze_locations then assign_location obj origin else ret tt) ;;
    assign_active (Some obj) ;;
    o ← deref obj;
    let fn := os_path_join h basedir (export_name mesh_name_prefix (name o)) in
    export_as file_type fn ;;
    select_set obj false ;;
    assign_location obj saved_location.

(** Lines 78-142. *)
Definition batch_export_meshes (directory : string) (freeze_locations : bool)
    (file_type mesh_name_prefix : string) : M unit :=
  basedir ← resolve_basedir directory;
  s ← get_scene;
  let obj_active := active s in
  let selection := selected_objects s in
  select_all_DESELECT ;;
  for_each selection (loop_body basedir freeze_locations file_type mesh_name_prefix) ;;
  assign_active obj_active ;;
  for_each selection (λ obj, select_set obj true).

(** Lines 62-74: [BatchExport.execute]. *)
Definition execute (self : BatchExport) : M (list string) :=
  let directory := execute_directory (filepath self) in
  (if negb (os_path_isdir h directory)
   then report "WARNING" "Please select a valid path"
   else batch_export_meshes directory (freeze_locations self) (file_type self)
          (mesh_name_prefix self)) ;;
  ret ["FINISHED"].

End Script.

(** ** A host to run the script on

    A POSIX host after Python's [posixpath] and Blender's
    [bpy.path.clean_name], with a given list of existing directories and
    exporters that always finish.  It serves to evaluate the script on
    concrete scenes. *)

Module Posix.

Fixpoint rstrip (c : ascii) (s : string) : string :=
  match s with
  | EmptyString => EmptyString
  | String a r =>
      let r' := rstrip c r in
      if negb (Py.truthy r') && Ascii.eqb a c then EmptyString else String a r'
  end.

Fixpoint all_char (c : ascii) (s : string) : bool :=
  match s with
  | EmptyString => true
  | String a r => Ascii.eqb a c && all_char c r
  end.

(** [posixpath.dirname] *)
Definition dirname (p : string) : string :=
  let i := Py.rfind p "/" + 1 in
  let head := Py.slice_to p i in
  if Py.truthy head && negb (all_char "/" head) then rstrip "/" head else head.

(** [posixpath.join] of two components *)
Definition join (a b : string) : string :=
  if String.prefix "/" b then b
  else if negb (Py.truthy a) || Ascii.eqb (List.last (list_ascii_of_string a) "a"%char) "/"
       then a ++ b
       else a ++ "/" ++ b.

(** The ASCII characters [bpy.path.clean_name] keeps: A-Z, a-z, 0-9, the
    hyphen and the underscore. *)
Definition alnum (c : ascii) : bool :=
  let n := nat_of_ascii c in
  ((48 <=? n) && (n <=? 57) || (65 <=? n) && (n <=? 90) || (97 <=? n) && (n <=? 122)
   || (n =? 45) || (n =? 95))%nat.

(** [bpy.path.clean_name] on a name in UTF-8: every other character below
    U+00FF becomes one underscore (of the two-byte characters, those that
    start with 0xC2, and with 0xC3 up to 0xBE); characters from U+00FF on
    are kept. *)
Fixpoint clean (s : string) : string :=
  match s with
  | EmptyString => EmptyString
  | String a r =>
      let n := nat_of_ascii a in
      if (n <? 128)%nat then String (if alnum a then a else "_"%char) (clean r)
      else
        match r with
        | String b r' =>
            if ((n =? 194) || (n =? 195) && (nat_of_ascii b <? 191))%nat
            then String "_"%char (clean r')
            else String a (clean r)
        | EmptyString => String a EmptyString
        end
  end.

(** [os.path.isdir] on a file system given by the path spellings under
    which its directories are found ([dirs]); the empty path names no
    directory. *)
Definition isdir (dirs : list string) (p : string) : bool :=
  Py.truthy p && existsb (String.eqb p) dirs.

Definition host (dirs : list string) : Host :=
  mkHost (isdir dirs) dirname join clean (λ _, true).

End Posix.

(** The scene of the specification's example: a mesh and a light, both
    selected, the mesh active, in a saved project. *)
Definition MeshA : Object :=
  mkObject "MeshA" "MESH" (mkVector (S754_finite false 3 0) (S754_zero false) (S754_zero true)) true.

Definition LightB : Object :=
  mkObject "LightB" "LIGHT" (mkVector (S754_zero false) (S754_finite true 5 1) (S754_zero false)) true.

Definition CubeC : Object :=
  mkObject "Cube.001" "MESH" origin false.

Definition example_scene : Scene :=
  mkScene [MeshA; LightB; CubeC] (Some 0%nat) "/home/user/project.blend" "OBJECT".

Definition unsaved_scene : Scene :=
  mkScene [MeshA; LightB; CubeC] (Some 0%nat) "" "OBJECT".

(** The same project with only the light selected. *)
Definition lights_scene : Scene :=
  mkScene [set_select false MeshA; LightB; CubeC] (Some 1%nat) "/home/user/project.blend"
    "OBJECT".

Definition out_host : Host := Posix.host ["/out"].

(** ** The specification's vocabulary *)

(** Eligible object (glossary): its type is mesh or armature. *)
Definition eligible (o : Object) : bool :=
  (type o =? "MESH")%string || (type o =? "ARMATURE")%string.

(** The format table of the specification (section 4.2, step g): the
    exporter, the extension and the export variant of each format. *)
Definition spec_format (file_type : string) : option (Exporter * string * option string) :=
  if decide (file_type = "FBX") then Some (export_scene_fbx, ".fbx", None)
  else if decide (file_type = "OBJ") then Some (export_scene_obj, ".obj", None)
  else if decide (file_type = "GLTF") then Some (export_scene_gltf, ".gltf", Some "GLTF_SEPARATE")
  else if decide (file_type = "DAE") then Some (export_scene_fbx, ".dae", None)
  else None.

Definition spec_extension (file_type : string) : string :=
  match spec_format file_type with
  | Some (_, ext, _) => ext
  | None => ""
  end.

(** Whether a reference points to an eligible object of the store. *)
Definition eligible_at (objs : list Object) (r : ref) : bool :=
  match objs !! r with
  | Some o => eligible o
  | None => false
  end.

(** The selected objects of a scene, as a set of references. *)
Definition selection_set (s : Scene) (r : ref) : Prop :=
  ∃ o, objects s !! r = Some o ∧ select o = true.

(** The store after the second loop of the routine, which selects every
    object of the list. *)
Definition reselect (l : list ref) (objs : list Object) : list Object :=
  foldl (λ acc r, alter (set_select true) r acc) objs l.

(** An exception that comes from the host (a failed exporter, a removed
    object), not from the script's own [raise]. *)
Definition host_error (e : exn) : Prop :=
  match e with
  | Exception _ => False
  | RuntimeError _ | ReferenceError _ => True
  end.

Definition raises_only {A} (P : exn → Prop) (c : M A) : Prop :=
  ∀ w e, fst (c w) = Raise e → P e.

(** Every object of every scene in [new], and of the current scene, is
    where the list [L] of locations says. *)
Definition locations_kept (L : list Vector) (H0 : list Scene) (w : World) : Prop :=
  location <$> objects (scene w) = L ∧
  ∃ new, history w = (new ++ H0)%list ∧ ∀ s, s ∈ new → location <$> objects s = L.

Section Expected.

Variable h : Host.
Variables (basedir : string) (freeze_locations : bool).
Variables (file_type mesh_name_prefix : string).

(** The store at the start of every turn of the loop ([D]) and the
    project path ([fp]). *)
Variables (D : list Object) (fp : string).

(** The object as the exporter is to see it: selected, at the origin when
    locations are frozen. *)
Definition staged (o : Object) : Object :=
  mkObject (name o) (type o) (if freeze_locations then origin else location o) true.

(** The exporter invocations expected for one object of the selection.
    An exporter is only reached in object mode, past [select_all]. *)
Definition spec_call (r : ref) : list ExportCall :=
  match D !! r with
  | Some o =>
      if eligible o then
        match spec_format file_type with
        | Some (e, ext, fmt) =>
            [mkExportCall e
               (os_path_join h basedir (mesh_name_prefix ++ clean_name h (name o)) ++ ext)
               true fmt (mkScene (alter staged r D) (Some r) fp "OBJECT")]
        | None => []
        end
      else []
  | None => []
  end.

(** The exporter invocations expected for a selection, in order. *)
Definition spec_calls (l : list ref) : list ExportCall := l ≫= spec_call.

End Expected.

(** ** Further vocabulary *)

(** Whether the character occurs in the string. *)
Fixpoint occurs (c : ascii) (s : string) : bool :=
  match s with
  | EmptyString => false
  | String a r => Ascii.eqb a c || occurs c r
  end.

(** A predicate on scenes holds of the current scene and of every scene
    added to the history since [H0]. *)
Definition scenes_keep (P : Scene → Prop) (H0 : list Scene) (w : World) : Prop :=
  P (scene w) ∧ ∃ new, history w = (new ++ H0)%list ∧ ∀ s, s ∈ new → P s.

(** The example project with a second, selected mesh away from the origin,
    and the light active. *)
Definition CubeD : Object :=
  mkObject "Cube.001" "MESH"
    (mkVector (S754_finite false 1 2) (S754_finite true 7 0) (S754_zero false)) true.

Definition meshes_scene : Scene :=
  mkScene [MeshA; LightB; CubeD] (Some 1%nat) "/home/user/project.blend" "OBJECT".

(** The light and the cube selected while the active mesh is being edited. *)
Definition edit_scene : Scene :=
  mkScene [set_select false MeshA; LightB; CubeD] (Some 0%nat) "/home/user/project.blend"
    "EDIT_MESH".

(** A host like [out_host] whose exporter raises on the cube's file. *)
Definition picky_host : Host :=
  mkHost (Posix.isdir ["/out"]) Posix.dirname Posix.join Posix.clean
    (λ c, negb (call_filepath c =? "/out/SM_Cube_001.fbx")%string).

(** * Properties *)

(** ** Running the primitives *)

Lemma bind_run {A B} (c : M A) (k : A → M B) w :
  (c ≫= k) w = match c w with
               | (Ok a, w') => k a w'
               | (Raise e, w') => (Raise e, w')
               end.
Proof. reflexivity. Qed.

Lemma deref_run r w o :
  objects (scene w) !! r = Some o → deref r w = (Ok o, w).
Proof. intros Hr. unfold deref. rewrite bind_run. simpl. by rewrite Hr. Qed.

Lemma deref_dangling r w :
  objects (scene w) !! r = None →
  deref r w = (Raise (ReferenceError "StructRNA of type Object has been removed"), w).
Proof. intros Hr. unfold deref. rewrite bind_run. simpl. by rewrite Hr. Qed.

Lemma select_set_run r b w o :
  objects (scene w) !! r = Some o →
  select_set r b w = (Ok tt, commit (with_objects (alter (set_select b) r)) w).
Proof. intros Hr. unfold select_set. rewrite bind_run, (deref_run _ _ _ Hr). done. Qed.

Lemma assign_location_run r v w o :
  objects (scene w) !! r = Some o →
  assign_location r v w = (Ok tt, commit (with_objects (alter (set_location v) r)) w).
Proof. intros Hr. unfold assign_location. rewrite bind_run, (deref_run _ _ _ Hr). done. Qed.

Lemma lookup_commit_alter f r w :
  objects (scene (commit (with_objects (alter f r)) w)) !! r = f <$> objects (scene w) !! r.
Proof. simpl. apply list_lookup_alter_eq. Qed.

Lemma alter_fixed {A} (f : A → A) (l : list A) i x :
  l !! i = Some x → f x = x → alter f i l = l.
Proof.
  intros Hi Hf. apply list_eq. intros j.
  destruct (decide (i = j)) as [->|Hne].
  - rewrite list_lookup_alter_eq, Hi. simpl. by rewrite Hf.
  - by rewrite list_lookup_alter_ne.
Qed.

(** The dispatch on the format follows the format table. *)
Lemma export_as_spec h ft fn :
  export_as h ft fn =
    match spec_format ft with
    | Some (e, ext, fmt) => invoke h e (fn ++ ext) fmt
    | None => ret tt
    end.
Proof.
  unfold export_as, spec_format.
  repeat (case_decide as Hd;
          [ subst ft; reflexivity
          | apply String.eqb_neq in Hd; rewrite Hd; clear Hd ]).
  reflexivity.
Qed.

Lemma export_name_spec h pre nm :
  export_name h pre nm = (pre ++ clean_name h nm)%string.
Proof. unfold export_name. by destruct pre. Qed.

Lemma skip_test o :
  negb (type o =? "MESH")%string && negb (type o =? "ARMATURE")%string = negb (eligible o).
Proof. unfold eligible. by rewrite negb_orb. Qed.

(** ** One turn of the loop *)

Lemma invoke_run h e path fmt w :
  invoke h e path fmt w =
    let c := mkExportCall e path true fmt (scene w) in
    let w' := mkWorld (scene w) (exported w ++ [c]) (reports w) (history w) in
    (if exporter_finishes h c then Ok tt else Raise (RuntimeError "export operator failed"), w').
Proof. unfold invoke. simpl. by destruct (exporter_finishes h _). Qed.

(** An exporter reads the scene; it changes neither the scene nor its
    history, nor the reports. *)
Lemma export_as_frame h ft fn w :
  let w' := snd (export_as h ft fn w) in
  scene w' = scene w ∧ history w' = history w ∧ reports w' = reports w.
Proof.
  rewrite export_as_spec. destruct (spec_format ft) as [[[e ext] fmt]|]; [|done].
  by rewrite invoke_run.
Qed.

Lemma loop_body_skip h basedir fl ft pre i w o :
  objects (scene w) !! i = Some o → eligible o = false →
  loop_body h basedir fl ft pre i w = (Ok tt, w).
Proof.
  intros Hi Hel. unfold loop_body.
  rewrite bind_run, (deref_run _ _ _ Hi), skip_test, Hel. done.
Qed.

Lemma loop_body_dangling h basedir fl ft pre i w :
  objects (scene w) !! i = None →
  ∃ e, loop_body h basedir fl ft pre i w = (Raise e, w).
Proof.
  intros Hi. unfold loop_body. rewrite bind_run, (deref_dangling _ _ Hi). eauto.
Qed.

Lemma loop_body_run h basedir fl ft pre i w o :
  objects (scene w) !! i = Some o → eligible o = true →
  loop_body h basedir fl ft pre i w =
    let w1 := commit (with_objects (alter (set_select true) i)) w in
    let w2 := if fl then commit (with_objects (alter (set_location origin) i)) w1 else w1 in
    let w3 := commit (with_active (Some i)) w2 in
    let fn := os_path_join h basedir (pre ++ clean_name h (name o)) in
    match export_as h ft fn w3 with
    | (Ok _, w4) =>
        (Ok tt, commit (with_objects (alter (set_location (location o)) i))
                  (commit (with_objects (alter (set_select false) i)) w4))
    | (Raise e, w4) => (Raise e, w4)
    end.
Proof.
  intros Hi Hel. unfold loop_body.
  rewrite bind_run, (deref_run _ _ _ Hi), skip_test, Hel. cbn [negb].
  rewrite bind_run, (select_set_run _ _ _ _ Hi).
  set (w1 := commit (with_objects (alter (set_select true) i)) w).
  assert (H1 : objects (scene w1) !! i = Some (set_select true o)).
  { unfold w1. by rewrite lookup_commit_alter, Hi. }
  rewrite bind_run, (deref_run _ _ _ H1). simpl location.
  rewrite bind_run.
  set (w2 := if fl then commit (with_objects (alter (set_location origin) i)) w1 else w1).
  assert (H2 : ∃ o2, objects (scene w2) !! i = Some o2 ∧ name o2 = name o).
  { unfold w2. destruct fl.
    - rewrite lookup_commit_alter, H1. by eexists.
    - by eexists. }
  destruct H2 as (o2 & H2 & Hn2).
  assert (Hfl : (if fl then assign_location i origin else ret tt) w1 = (Ok tt, w2)).
  { unfold w2. destruct fl; [|done]. by rewrite (assign_location_run _ _ _ _ H1). }
  rewrite Hfl. rewrite bind_run. unfold assign_active at 1, mutate at 1.
  set (w3 := commit (with_active (Some i)) w2).
  assert (H3 : objects (scene w3) !! i = Some o2) by done.
  rewrite bind_run, (deref_run _ _ _ H3), Hn2, export_name_spec, bind_run.
  simpl.
  pose proof (export_as_frame h ft (os_path_join h basedir (pre ++ clean_name h (name o))) w3)
    as (Hsc & _).
  fold w1 w2 w3.
  destruct (export_as h ft _ w3) as [[[]|e] w4]; [|done].
  simpl in Hsc.
  assert (H4 : objects (scene w4) !! i = Some o2) by (by rewrite Hsc).
  rewrite bind_run, (select_set_run _ _ _ _ H4).
  erewrite assign_location_run; [done|].
  by rewrite lookup_commit_alter, H4.
Qed.

(** ** Loops *)

Lemma for_each_cons {A} (x : A) l body w :
  for_each (x :: l) body w =
    match body x w with
    | (Ok _, w') => for_each l body w'
    | (Raise e, w') => (Raise e, w')
    end.
Proof. reflexivity. Qed.

(** A property of the world that every turn keeps, whether the turn
    finishes or raises, holds when the loop is left. *)
Lemma for_each_inv {A} (I : World → Prop) (l : list A) body w :
  I w →
  (∀ x w, x ∈ l → I w → I (snd (body x w))) →
  I (snd (for_each l body w)).
Proof.
  revert w. induction l as [|x l IH]; intros w Hw Hstep; [done|].
  rewrite for_each_cons.
  pose proof (Hstep x w ltac:(left) Hw) as Hx.
  destruct (body x w) as [[[]|e] w1]; [|done].
  apply IH; [done|]. intros y w2 Hy. apply Hstep. by right.
Qed.

(** ** The selection *)

Lemma elem_of_selected_from k l j :
  j ∈ selected_from k l ↔ ∃ o, (k ≤ j)%nat ∧ l !! (j - k)%nat = Some o ∧ select o = true.
Proof.
  revert k. induction l as [|o l IH]; intros k; simpl.
  - split; [by intros ?%elem_of_nil | by intros (? & _ & ? & _)].
  - assert (Hrest : j ∈ selected_from (S k) l ↔
                    ∃ o', (k < j)%nat ∧ (o :: l) !! (j - k)%nat = Some o' ∧ select o' = true).
    { rewrite IH. split; intros (o' & Hlt & Hl & Ho'); exists o'.
      - split; [lia|]. split; [|done].
        by replace (j - k)%nat with (S (j - S k)) by lia.
      - split; [lia|]. split; [|done].
        by replace (j - k)%nat with (S (j - S k)) in Hl by lia. }
    assert (Hsplit : (∃ o', (k ≤ j)%nat ∧ (o :: l) !! (j - k)%nat = Some o' ∧ select o' = true) ↔
                     (j = k ∧ select o = true) ∨ j ∈ selected_from (S k) l).
    { rewrite Hrest. split.
      - intros (o' & Hle & Hl & Ho').
        destruct (decide (j = k)) as [->|Hne].
        + left. rewrite Nat.sub_diag in Hl. simpl in Hl. split; congruence.
        + right. exists o'. split; [lia|done].
      - intros [[-> Ho]|(o' & Hlt & Hl & Ho')].
        + exists o. rewrite Nat.sub_diag. done.
        + exists o'. split; [lia|done]. }
    rewrite Hsplit. destruct (select o).
    + rewrite elem_of_cons. split; (intros [?|?]; [left|right]); tauto.
    + split; [by right|]. by intros [[_ ?]|?].
Qed.

(** [selected_objects] lists exactly the selected objects of the scene. *)
Lemma elem_of_selected_objects s j :
  j ∈ selected_objects s ↔ selection_set s j.
Proof.
  unfold selected_objects, selection_set. rewrite elem_of_selected_from.
  rewrite Nat.sub_0_r. split.
  - intros (o & _ & ? & ?). eauto.
  - intros (o & ? & ?). exists o. split; [lia|done].
Qed.

Lemma lookup_reselect l objs j :
  reselect l objs !! j =
    if decide (j ∈ l) then set_select true <$> objs !! j else objs !! j.
Proof.
  unfold reselect. revert objs. induction l as [|r l IH]; intros objs; cbn [foldl].
  - case_decide as Hj; [by apply elem_of_nil in Hj | done].
  - rewrite IH. destruct (decide (r = j)) as [->|Hne].
    + rewrite list_lookup_alter_eq.
      rewrite (decide_True (P := j ∈ j :: l)) by left.
      case_decide; [|done]. by destruct (objs !! j).
    + rewrite list_lookup_alter_ne by done.
      case_decide as Hj.
      * by rewrite decide_True by (by right).
      * rewrite decide_False; [done|]. intros [?|?]%elem_of_cons; congruence.
Qed.

(** Selecting the formerly selected objects again undoes the deselection. *)
Lemma reselect_deselected objs :
  reselect (selected_from 0 objs) (set_select false <$> objs) = objs.
Proof.
  apply list_eq. intros j. rewrite lookup_reselect, list_lookup_fmap.
  case_decide as Hj.
  - apply elem_of_selected_from in Hj as (o & _ & Ho & Hsel).
    rewrite Nat.sub_0_r in Ho. rewrite Ho. simpl. f_equal.
    destruct o; simpl in *. by subst.
  - destruct (objs !! j) as [o|] eqn:Ho; [|done]. simpl. f_equal.
    destruct (select o) eqn:Hsel.
    + exfalso. apply Hj, elem_of_selected_from. exists o.
      rewrite Nat.sub_0_r. split; [lia|done].
    + destruct o; simpl in *. by subst.
Qed.

Lemma reselect_run l w :
  (∀ r, r ∈ l → (r < length (objects (scene w)))%nat) →
  ∃ w', for_each l (λ obj, select_set obj true) w = (Ok tt, w') ∧
        objects (scene w') = reselect l (objects (scene w)) ∧
        active (scene w') = active (scene w) ∧
        data_filepath (scene w') = data_filepath (scene w) ∧
        exported w' = exported w ∧ reports w' = reports w ∧
        mode (scene w') = mode (scene w).
Proof.
  revert w. induction l as [|r l IH]; intros w Hval.
  - by exists w.
  - destruct (lookup_lt_is_Some_2 (objects (scene w)) r) as [o Ho].
    { apply Hval. by left. }
    rewrite for_each_cons, (select_set_run _ _ _ _ Ho).
    destruct (IH (commit (with_objects (alter (set_select true) r)) w))
      as (w' & Hrun & Hobj & Hact & Hfp & Hexp & Hrep & Hmode).
    { intros r' Hr'. simpl. rewrite length_alter. apply Hval. by right. }
    exists w'. by rewrite Hrun, Hobj, Hact, Hfp, Hexp, Hrep, Hmode.
Qed.

(** ** The context mode *)

Lemma select_all_run w :
  mode (scene w) = "OBJECT" →
  select_all_DESELECT w = (Ok tt, commit (with_objects (fmap (set_select false))) w).
Proof.
  intros Hm. unfold select_all_DESELECT. rewrite bind_run. simpl.
  apply String.eqb_eq in Hm. by rewrite Hm.
Qed.

Lemma select_all_poll_fails w :
  mode (scene w) ≠ "OBJECT" → select_all_DESELECT w = (Raise poll_failed, w).
Proof.
  intros Hm. unfold select_all_DESELECT. rewrite bind_run. simpl.
  apply String.eqb_neq in Hm. by rewrite Hm.
Qed.

(** The script never changes the mode. *)
Lemma loop_body_mode h basedir fl ft pre i w :
  mode (scene (snd (loop_body h basedir fl ft pre i w))) = mode (scene w).
Proof.
  destruct (objects (scene w) !! i) as [o|] eqn:Hi.
  - destruct (eligible o) eqn:Hel.
    + rewrite (loop_body_run _ _ _ _ _ _ _ _ Hi Hel). cbv zeta.
      set (w3 := commit (with_active (Some i)) _).
      assert (H3 : mode (scene w3) = mode (scene w)) by (unfold w3; by destruct fl).
      clearbody w3.
      pose proof (export_as_frame h ft (os_path_join h basedir (pre ++ clean_name h (name o))) w3)
        as (Hsc & _).
      destruct (export_as h ft _ w3) as [[[]|e] w4]; simpl in Hsc; simpl; by rewrite Hsc.
    + by rewrite (loop_body_skip _ _ _ _ _ _ _ _ Hi Hel).
  - destruct (loop_body_dangling h basedir fl ft pre i w Hi) as [e ->]. done.
Qed.

Lemma loop_mode h basedir fl ft pre l w :
  mode (scene (snd (for_each l (loop_body h basedir fl ft pre) w))) = mode (scene w).
Proof.
  apply (for_each_inv (λ w', mode (scene w') = mode (scene w))); [done|].
  intros i w0 _ <-. apply loop_body_mode.
Qed.

(** ** The first loop of the routine *)

Section Loop.

Variable h : Host.
Variables (basedir : string) (fl : bool) (ft pre : string).
Variables (D : list Object) (fp : string).

(** Every turn starts with nothing selected. *)
Hypothesis D_deselected : ∀ o, o ∈ D → select o = false.

Lemma staged_scene i w :
  objects (scene w) = D → data_filepath (scene w) = fp → mode (scene w) = "OBJECT" →
  scene (commit (with_active (Some i))
           (if fl
            then commit (with_objects (alter (set_location origin) i))
                   (commit (with_objects (alter (set_select true) i)) w)
            else commit (with_objects (alter (set_select true) i)) w))
  = mkScene (alter (staged fl) i D) (Some i) fp "OBJECT".
Proof.
  intros <- <- Hm.
  destruct fl; simpl; unfold with_active, with_objects; simpl; rewrite Hm; f_equal;
    rewrite ?list_alter_alter_eq; by apply list_alter_ext.
Qed.

Lemma restored_objects i o :
  D !! i = Some o →
  alter (set_location (location o)) i (alter (set_select false) i (alter (staged fl) i D)) = D.
Proof.
  intros Hi. rewrite !list_alter_alter_eq. apply alter_fixed with o; [done|].
  pose proof (D_deselected o (list_elem_of_lookup_2 _ _ _ Hi)) as Hsel.
  destruct o; simpl in *. by subst.
Qed.

(** One turn: the exporter invocations it makes are those expected for
    the object, all of them when the turn finishes, and then the store is
    as it was when the turn began.  The turn finishes when the object
    exists and the exporter does. *)
Lemma loop_body_spec i w :
  objects (scene w) = D → data_filepath (scene w) = fp → mode (scene w) = "OBJECT" →
  let r := loop_body h basedir fl ft pre i w in
  ∃ calls,
    exported (snd r) = (exported w ++ calls)%list ∧
    calls `prefix_of` spec_call h basedir fl ft pre D fp i ∧
    reports (snd r) = reports w ∧
    data_filepath (scene (snd r)) = fp ∧
    (fst r = Ok tt → calls = spec_call h basedir fl ft pre D fp i ∧ objects (scene (snd r)) = D) ∧
    ((i < length D)%nat → (∀ c, c ∈ calls → exporter_finishes h c = true) → fst r = Ok tt).
Proof.
  intros HD Hfp Hm. unfold spec_call. destruct (D !! i) as [o|] eqn:Hi.
  - destruct (eligible o) eqn:Hel.
    + rewrite <- HD in Hi. simpl.
      rewrite (loop_body_run _ _ _ _ _ _ _ _ Hi Hel). cbv zeta.
      rewrite export_as_spec. rewrite HD in Hi.
      pose proof (staged_scene i w HD Hfp Hm) as Hst.
      set (w3 := commit (with_active (Some i)) _) in *.
      assert (He3 : exported w3 = exported w) by (unfold w3; by destruct fl).
      assert (Hr3 : reports w3 = reports w) by (unfold w3; by destruct fl).
      clearbody w3.
      destruct (spec_format ft) as [[[e ext] fmt]|].
      * rewrite invoke_run. cbv zeta. rewrite Hst, He3, Hr3.
        set (c := mkExportCall _ _ _ _ _).
        exists [c]. destruct (exporter_finishes h c) eqn:Hfin; simpl.
        -- split_and!; try done. intros _. split; [done|].
           by apply restored_objects.
        -- split_and!; try done. intros _ Hall.
           rewrite Hall in Hfin; [done|]. by left.
      * exists []. simpl. rewrite Hst, He3, Hr3. simpl. rewrite app_nil_r.
        split_and!; try done. intros _. split; [done|]. by apply restored_objects.
    + rewrite <- HD in Hi. simpl. rewrite (loop_body_skip _ _ _ _ _ _ _ _ Hi Hel).
      exists []. simpl. rewrite app_nil_r, HD. done.
  - rewrite <- HD in Hi.
    destruct (loop_body_dangling h basedir fl ft pre i w Hi) as [e He].
    simpl. rewrite He. exists []. simpl. rewrite app_nil_r. split_and!; try done.
    intros Hlt. rewrite HD in Hi. apply lookup_ge_None in Hi. lia.
Qed.

(** The loop: its exporter invocations are a prefix of the expected ones,
    in order, and all of them when the loop finishes.  The loop finishes
    when the objects exist and the exporters do. *)
Lemma loop_spec l w :
  objects (scene w) = D → data_filepath (scene w) = fp → mode (scene w) = "OBJECT" →
  let r := for_each l (loop_body h basedir fl ft pre) w in
  ∃ calls,
    exported (snd r) = (exported w ++ calls)%list ∧
    calls `prefix_of` spec_calls h basedir fl ft pre D fp l ∧
    reports (snd r) = reports w ∧
    data_filepath (scene (snd r)) = fp ∧
    (fst r = Ok tt → calls = spec_calls h basedir fl ft pre D fp l ∧ objects (scene (snd r)) = D) ∧
    ((∀ i, i ∈ l → (i < length D)%nat) →
     (∀ c, c ∈ calls → exporter_finishes h c = true) → fst r = Ok tt).
Proof.
  revert w. induction l as [|i l IH]; intros w HD Hfp Hm.
  - exists []. simpl. rewrite app_nil_r, HD. done.
  - cbv zeta. rewrite for_each_cons.
    destruct (loop_body_spec i w HD Hfp Hm) as (c1 & Hexp1 & Hpre1 & Hrep1 & Hfp1 & Hok1 & Hfin1).
    pose proof (loop_body_mode h basedir fl ft pre i w) as Hm1. rewrite Hm in Hm1.
    change (spec_calls h basedir fl ft pre D fp (i :: l))
      with (spec_call h basedir fl ft pre D fp i ++ spec_calls h basedir fl ft pre D fp l)%list.
    destruct (loop_body h basedir fl ft pre i w) as [[[]|e] w1]; simpl in *.
    + destruct (Hok1 eq_refl) as [-> HD1].
      destruct (IH w1 HD1 Hfp1 Hm1) as (c2 & Hexp2 & Hpre2 & Hrep2 & Hfp2 & Hok2 & Hfin2).
      exists (spec_call h basedir fl ft pre D fp i ++ c2)%list.
      rewrite Hexp2, Hexp1, Hrep2, Hrep1, (assoc_L (++)).
      split_and!; try done.
      * by apply prefix_app.
      * intros Hok. destruct (Hok2 Hok) as [-> ?]. done.
      * intros Hval Hall. apply Hfin2.
        -- intros j Hj. apply Hval. by right.
        -- intros c Hc. apply Hall. apply elem_of_app. by right.
    + exists c1. split_and!; try done.
      * by apply prefix_app_r.
      * intros Hval Hall. apply Hfin1; [|done]. apply Hval. by left.
Qed.

End Loop.

(** ** The routine *)

(** Lines 80-88: the explicit directory, else the directory of the
    project file; without either the routine raises, the world untouched. *)
Lemma resolve_basedir_run h d w :
  resolve_basedir h d w =
    let b := if decide (d = "") then os_path_dirname h (data_filepath (scene w)) else d in
    if decide (b = "") then (Raise (Exception "Blend file is not saved"), w) else (Ok b, w).
Proof.
  unfold resolve_basedir. rewrite bind_run. simpl.
  destruct d as [|a d]; simpl.
  - destruct (os_path_dirname h _); done.
  - done.
Qed.

Lemma selected_objects_valid s i :
  i ∈ selected_objects s → (i < length (objects s))%nat.
Proof.
  intros (o & Ho & _)%elem_of_selected_objects. by eapply lookup_lt_Some.
Qed.

(** The routine past its first lines: deselect, loop, restore. *)
Lemma batch_export_meshes_run h d fl ft pre w b :
  resolve_basedir h d w = (Ok b, w) → mode (scene w) = "OBJECT" →
  batch_export_meshes h d fl ft pre w =
    let sel := selected_objects (scene w) in
    match for_each sel (loop_body h b fl ft pre)
            (commit (with_objects (fmap (set_select false))) w) with
    | (Ok _, w1) =>
        for_each sel (λ obj, select_set obj true)
          (commit (with_active (active (scene w))) w1)
    | (Raise e, w1) => (Raise e, w1)
    end.
Proof.
  intros Hb Hm. unfold batch_export_meshes. rewrite bind_run, Hb. cbv zeta.
  rewrite bind_run. unfold get_scene at 1. cbv beta iota.
  rewrite bind_run, (select_all_run _ Hm).
  rewrite bind_run.
  destruct (for_each _ (loop_body h b fl ft pre) _) as [[[]|e] w1]; [|done].
  by rewrite bind_run.
Qed.

(** Outside object mode the routine stops at [select_all], the world
    untouched. *)
Lemma batch_export_meshes_poll_fails h d fl ft pre w b :
  resolve_basedir h d w = (Ok b, w) → mode (scene w) ≠ "OBJECT" →
  batch_export_meshes h d fl ft pre w = (Raise poll_failed, w).
Proof.
  intros Hb Hm. unfold batch_export_meshes. rewrite bind_run, Hb. cbv zeta.
  rewrite bind_run. unfold get_scene at 1. cbv beta iota.
  by rewrite bind_run, (select_all_poll_fails _ Hm).
Qed.

(** The routine, once the directory is known: it invokes a prefix of the
    expected exporter calls; when it finishes it has invoked them all and
    the scene is the scene it started from; in object mode it finishes
    when the exporters do. *)
Lemma batch_export_meshes_spec h d fl ft pre w b :
  resolve_basedir h d w = (Ok b, w) →
  let D := set_select false <$> objects (scene w) in
  let expected :=
    spec_calls h b fl ft pre D (data_filepath (scene w)) (selected_objects (scene w)) in
  let r := batch_export_meshes h d fl ft pre w in
  ∃ calls,
    exported (snd r) = (exported w ++ calls)%list ∧
    calls `prefix_of` expected ∧
    reports (snd r) = reports w ∧
    (fst r = Ok tt → calls = expected ∧ scene (snd r) = scene w) ∧
    (mode (scene w) = "OBJECT" →
     (∀ c, c ∈ calls → exporter_finishes h c = true) → fst r = Ok tt).
Proof.
  intros Hb D expected.
  destruct (decide (mode (scene w) = "OBJECT")) as [Hm|Hm]; cycle 1.
  { rewrite (batch_export_meshes_poll_fails _ _ _ _ _ _ _ Hb Hm). exists []. simpl.
    rewrite app_nil_r. split_and!; try done. apply prefix_nil. }
  rewrite (batch_export_meshes_run _ _ _ _ _ _ _ Hb Hm). cbv zeta.
  set (wd := commit (with_objects (fmap (set_select false))) w).
  assert (Hdes : ∀ o, o ∈ D → select o = false).
  { intros o (o' & -> & _)%list_elem_of_fmap. done. }
  pose proof (loop_mode h b fl ft pre (selected_objects (scene w)) wd) as Hmode1.
  destruct (loop_spec h b fl ft pre D (data_filepath (scene w)) Hdes
              (selected_objects (scene w)) wd eq_refl eq_refl Hm)
    as (calls & Hexp & Hpre & Hrep & Hfp & Hok & Hfin).
  fold expected in Hpre, Hok.
  assert (Hval : ∀ i, i ∈ selected_objects (scene w) → (i < length D)%nat).
  { intros i Hi. unfold D. rewrite length_fmap. by apply selected_objects_valid. }
  specialize (Hfin Hval).
  destruct (for_each (selected_objects (scene w)) (loop_body h b fl ft pre) wd)
    as [[[]|e] w1]; simpl in Hexp, Hrep, Hfp, Hok, Hfin, Hmode1.
  - destruct (Hok eq_refl) as [-> HD1].
    destruct (reselect_run (selected_objects (scene w))
                (commit (with_active (active (scene w))) w1))
      as (w' & Hrun & Hobj & Hact & Hfp' & Hexp' & Hrep' & Hmode').
    { intros i Hi. simpl. rewrite HD1. by apply Hval. }
    rewrite Hrun. exists expected. simpl.
    rewrite Hexp', Hrep'. simpl. split_and!; try done.
    intros _. split; [done|].
    simpl in Hobj, Hact, Hfp', Hmode'. rewrite HD1 in Hobj.
    unfold D, selected_objects in Hobj. rewrite reselect_deselected in Hobj.
    destruct (scene w'), (scene w); simpl in *. congruence.
  - exists calls. simpl. split_and!; try done.
Qed.

(** ** What the expected invocations look like *)

Lemma elem_of_spec_calls h b fl ft pre D fp l c :
  c ∈ spec_calls h b fl ft pre D fp l →
  ∃ i o e ext fmt,
    i ∈ l ∧ D !! i = Some o ∧ eligible o = true ∧
    spec_format ft = Some (e, ext, fmt) ∧
    c = mkExportCall e (os_path_join h b (pre ++ clean_name h (name o)) ++ ext) true fmt
          (mkScene (alter (staged fl) i D) (Some i) fp "OBJECT").
Proof.
  unfold spec_calls. intros (i & Hc & Hi)%list_elem_of_bind.
  unfold spec_call in Hc. destruct (D !! i) as [o|] eqn:Ho; [|by apply elem_of_nil in Hc].
  destruct (eligible o) eqn:Hel; [|by apply elem_of_nil in Hc].
  destruct (spec_format ft) as [[[e ext] fmt]|]; [|by apply elem_of_nil in Hc].
  apply list_elem_of_singleton in Hc. exists i, o, e, ext, fmt. done.
Qed.

Lemma length_spec_calls h b fl ft pre D fp l :
  is_Some (spec_format ft) →
  length (spec_calls h b fl ft pre D fp l) = length (List.filter (eligible_at D) l).
Proof.
  intros [[[e ext] fmt] Hft]. unfold spec_calls.
  induction l as [|i l IH]; [done|].
  rewrite bind_cons, length_app, IH. cbn [List.filter].
  unfold spec_call, eligible_at. rewrite Hft.
  destruct (D !! i) as [o|]; [|done]. by destruct (eligible o).
Qed.

(** ** Locations along the way *)

Lemma locations_kept_commit L H0 f w :
  locations_kept L H0 w →
  location <$> objects (f (scene w)) = L →
  locations_kept L H0 (commit f w).
Proof.
  intros (Hnow & new & Hhist & Hnew) Hf. split; [done|].
  exists (f (scene w) :: new). simpl. rewrite Hhist. split; [done|].
  intros s [->|Hs]%elem_of_cons; auto.
Qed.

Lemma locations_kept_frame L H0 w w' :
  scene w' = scene w → history w' = history w →
  locations_kept L H0 w → locations_kept L H0 w'.
Proof. unfold locations_kept. by intros -> ->. Qed.

Lemma locations_alter_select b i (l : list Object) :
  location <$> alter (set_select b) i l = location <$> l.
Proof.
  apply list_eq. intros j. rewrite !list_lookup_fmap.
  destruct (decide (i = j)) as [->|Hne].
  - rewrite list_lookup_alter_eq. by destruct (l !! j).
  - by rewrite list_lookup_alter_ne.
Qed.

Lemma locations_alter_same v i (l : list Object) o :
  l !! i = Some o → location o = v →
  location <$> alter (set_location v) i l = location <$> l.
Proof.
  intros Hi Hv. apply list_eq. intros j. rewrite !list_lookup_fmap.
  destruct (decide (i = j)) as [->|Hne].
  - rewrite list_lookup_alter_eq, Hi. simpl. by rewrite Hv.
  - by rewrite list_lookup_alter_ne.
Qed.

Lemma select_set_keeps_locations L H0 r b w :
  locations_kept L H0 w → locations_kept L H0 (snd (select_set r b w)).
Proof.
  intros Hk. destruct (objects (scene w) !! r) as [o|] eqn:Hr.
  - rewrite (select_set_run _ _ _ _ Hr). apply locations_kept_commit; [done|].
    simpl. rewrite locations_alter_select. apply Hk.
  - unfold select_set. by rewrite bind_run, (deref_dangling _ _ Hr).
Qed.

(** Without freezing, a turn of the loop moves nothing, at any moment. *)
Lemma loop_body_keeps_locations L H0 h basedir ft pre i w :
  locations_kept L H0 w →
  locations_kept L H0 (snd (loop_body h basedir false ft pre i w)).
Proof.
  intros Hk. destruct (objects (scene w) !! i) as [o|] eqn:Hi.
  - destruct (eligible o) eqn:Hel.
    + rewrite (loop_body_run _ _ _ _ _ _ _ _ Hi Hel). cbv zeta iota.
      set (w3 := commit (with_active (Some i)) _).
      assert (H3 : locations_kept L H0 w3).
      { unfold w3. apply locations_kept_commit; [|simpl; rewrite locations_alter_select; apply Hk].
        apply locations_kept_commit; [done|].
        simpl. rewrite locations_alter_select. apply Hk. }
      assert (Hl3 : objects (scene w3) !! i = Some (set_select true o)).
      { simpl. by rewrite list_lookup_alter_eq, Hi. }
      clearbody w3.
      pose proof (export_as_frame h ft (os_path_join h basedir (pre ++ clean_name h (name o))) w3)
        as (Hsc & Hhi & _).
      destruct (export_as h ft _ w3) as [[[]|e] w4]; simpl in Hsc, Hhi;
        pose proof (locations_kept_frame L H0 w3 w4 Hsc Hhi H3) as H4; [|done].
      simpl. apply locations_kept_commit.
      * apply locations_kept_commit; [done|].
        simpl. rewrite locations_alter_select. apply H4.
      * simpl. rewrite (locations_alter_same _ _ _ (set_select false (set_select true o))).
        -- rewrite locations_alter_select. apply H4.
        -- by rewrite list_lookup_alter_eq, Hsc, Hl3.
        -- done.
    + by rewrite (loop_body_skip _ _ _ _ _ _ _ _ Hi Hel).
  - destruct (loop_body_dangling h basedir false ft pre i w Hi) as [e ->]. done.
Qed.

(** ** The exceptions a run can end with *)

Lemma raises_only_ret {A} P (a : A) : raises_only P (ret a).
Proof. by intros w e. Qed.

Lemma raises_only_bind {A B} P (c : M A) (k : A → M B) :
  raises_only P c → (∀ a, raises_only P (k a)) → raises_only P (c ≫= k).
Proof.
  intros Hc Hk w e. rewrite bind_run. specialize (Hc w).
  destruct (c w) as [[a|e'] w1]; simpl in *.
  - apply Hk.
  - intros [= <-]. by apply Hc.
Qed.

Lemma raises_only_mutate P f : raises_only P (mutate f).
Proof. by intros w e. Qed.

Lemma raises_only_deref r : raises_only host_error (deref r).
Proof.
  intros w e. unfold deref. rewrite bind_run. simpl.
  destruct (objects (scene w) !! r); simpl; [done|]. by intros [= <-].
Qed.

Lemma raises_only_export_as h ft fn : raises_only host_error (export_as h ft fn).
Proof.
  intros w e. rewrite export_as_spec. destruct (spec_format ft) as [[[x ext] fmt]|]; [|done].
  rewrite invoke_run. simpl. destruct (exporter_finishes h _); [done|]. by intros [= <-].
Qed.

Lemma raises_only_for_each {A} P (l : list A) body :
  (∀ x, raises_only P (body x)) → raises_only P (for_each l body).
Proof.
  intros Hb. induction l as [|x l IH]; [apply raises_only_ret|].
  apply raises_only_bind; [apply Hb | by intros _].
Qed.

Lemma raises_only_select_set r b : raises_only host_error (select_set r b).
Proof.
  apply raises_only_bind; [apply raises_only_deref | intros _; apply raises_only_mutate].
Qed.

Lemma raises_only_assign_location r v : raises_only host_error (assign_location r v).
Proof.
  apply raises_only_bind; [apply raises_only_deref | intros _; apply raises_only_mutate].
Qed.

Lemma raises_only_loop_body h basedir fl ft pre i :
  raises_only host_error (loop_body h basedir fl ft pre i).
Proof.
  unfold loop_body.
  apply raises_only_bind; [apply raises_only_deref | intros o].
  destruct (_ && _); [apply raises_only_ret|].
  apply raises_only_bind; [apply raises_only_select_set | intros _].
  apply raises_only_bind; [apply raises_only_deref | intros o1].
  apply raises_only_bind;
    [destruct fl; [apply raises_only_assign_location | apply raises_only_ret] | intros _].
  apply raises_only_bind; [apply raises_only_mutate | intros _].
  apply raises_only_bind; [apply raises_only_deref | intros o2].
  apply raises_only_bind; [apply raises_only_export_as | intros _].
  apply raises_only_bind; [apply raises_only_select_set | intros _].
  apply raises_only_assign_location.
Qed.

(** ** The first lines of the routine *)

Lemma resolve_basedir_cases h d w :
  (∃ b, b ≠ "" ∧ resolve_basedir h d w = (Ok b, w) ∧
        b = if decide (d = "") then os_path_dirname h (data_filepath (scene w)) else d) ∨
  (d = "" ∧ os_path_dirname h (data_filepath (scene w)) = "" ∧
   resolve_basedir h d w = (Raise (Exception "Blend file is not saved"), w)).
Proof.
  rewrite resolve_basedir_run. cbv zeta.
  destruct (decide (d = "")) as [->|Hd].
  - destruct (decide (os_path_dirname h (data_filepath (scene w)) = "")) as [He|Hne].
    + right. done.
    + left. eexists. done.
  - left. exists d. by rewrite decide_False.
Qed.

Lemma batch_export_meshes_abort h d fl ft pre w e :
  resolve_basedir h d w = (Raise e, w) →
  batch_export_meshes h d fl ft pre w = (Raise e, w).
Proof. intros Hr. unfold batch_export_meshes. by rewrite bind_run, Hr. Qed.

Lemma known_file_type ft :
  ft ∈ file_type_items → is_Some (spec_format ft).
Proof.
  unfold file_type_items. rewrite !elem_of_cons, elem_of_nil.
  intros [->|[->|[->|[->|[]]]]]; by eexists.
Qed.

(** Without freezing, the routine moves nothing, at any moment. *)
Lemma batch_export_meshes_keeps_locations L H0 h d ft pre w :
  locations_kept L H0 w →
  locations_kept L H0 (snd (batch_export_meshes h d false ft pre w)).
Proof.
  intros Hk. destruct (resolve_basedir_cases h d w) as [(b & _ & Hb & _)|(_ & _ & Hr)].
  - destruct (decide (mode (scene w) = "OBJECT")) as [Hm|Hm]; cycle 1.
    { by rewrite (batch_export_meshes_poll_fails _ _ _ _ _ _ _ Hb Hm). }
    rewrite (batch_export_meshes_run _ _ _ _ _ _ _ Hb Hm). cbv zeta.
    set (wd := commit _ w).
    assert (Hd : locations_kept L H0 wd).
    { apply locations_kept_commit; [done|]. simpl.
      rewrite <- list_fmap_compose. destruct Hk as [<- _]. by apply list_fmap_ext. }
    pose proof (for_each_inv (locations_kept L H0) (selected_objects (scene w))
                  (loop_body h b false ft pre) wd Hd) as Hloop.
    destruct (for_each _ (loop_body h b false ft pre) wd) as [[[]|e] w1]; simpl in Hloop.
    + assert (H1 : locations_kept L H0 w1).
      { apply Hloop. intros; by apply loop_body_keeps_locations. }
      apply for_each_inv.
      * apply locations_kept_commit; [done|]. apply H1.
      * intros; by apply select_set_keeps_locations.
    + apply Hloop. intros; by apply loop_body_keeps_locations.
  - by rewrite (batch_export_meshes_abort _ _ _ _ _ _ _ Hr).
Qed.

Lemma eligible_at_deselected objs i :
  eligible_at (set_select false <$> objs) i = eligible_at objs i.
Proof. unfold eligible_at. rewrite list_lookup_fmap. by destruct (objs !! i). Qed.

Lemma filepaths_spec_calls h b fl ft pre objs fp l :
  is_Some (spec_format ft) →
  call_filepath <$> spec_calls h b fl ft pre (set_select false <$> objs) fp l =
    omap (λ i, match objs !! i with
               | Some o =>
                   if eligible o
                   then Some (os_path_join h b (pre ++ clean_name h (name o))
                                ++ spec_extension ft)%string
                   else None
               | None => None
               end) l.
Proof.
  intros [[[e ext] fmt] Hft]. unfold spec_calls, spec_extension. rewrite Hft.
  induction l as [|i l IH]; [done|].
  rewrite bind_cons, fmap_app, IH. cbn [omap list_omap].
  unfold spec_call at 1. rewrite list_lookup_fmap, Hft.
  destruct (objs !! i) as [o|]; [|reflexivity].
  change (set_select false <$> Some o) with (Some (set_select false o)). cbv beta iota.
  change (eligible (set_select false o)) with (eligible o).
  destruct (eligible o); reflexivity.
Qed.

Lemma batch_export_meshes_raises_host_errors h d fl ft pre w b :
  resolve_basedir h d w = (Ok b, w) →
  ∀ e, fst (batch_export_meshes h d fl ft pre w) = Raise e → host_error e.
Proof.
  intros Hb e.
  destruct (decide (mode (scene w) = "OBJECT")) as [Hm|Hm]; cycle 1.
  { rewrite (batch_export_meshes_poll_fails _ _ _ _ _ _ _ Hb Hm). by intros [= <-]. }
  rewrite (batch_export_meshes_run _ _ _ _ _ _ _ Hb Hm). cbv zeta.
  set (wd := commit _ w).
  pose proof (raises_only_for_each host_error (selected_objects (scene w))
                (loop_body h b fl ft pre) (raises_only_loop_body h b fl ft pre) wd) as Hloop.
  destruct (for_each _ (loop_body h b fl ft pre) wd) as [[[]|e'] w1]; simpl in Hloop.
  - apply raises_only_for_each. intros r. apply raises_only_select_set.
  - simpl. intros [= <-]. by apply Hloop.
Qed.

(** * The properties of the specification *)

(** C1.  When [batch_export_meshes] runs to completion, the selected
    objects (as a set and as the list [selected_objects]) and the active
    object are what they were before the call, whatever the file format
    and the freeze-locations flag, and also when the selection holds
    objects that are skipped for their type. *)
Theorem selection_and_active_restored h directory fl ft pre w w' :
  batch_export_meshes h directory fl ft pre w = (Ok tt, w') →
  (∀ r, selection_set (scene w') r ↔ selection_set (scene w) r) ∧
  selected_objects (scene w') = selected_objects (scene w) ∧
  active (scene w') = active (scene w).
Proof.
  intros Hrun.
  destruct (resolve_basedir_cases h directory w) as [(b & _ & Hb & _)|(_ & _ & Hr)].
  - destruct (batch_export_meshes_spec h directory fl ft pre w b Hb)
      as (calls & _ & _ & _ & Hok & _).
    rewrite Hrun in Hok. destruct (Hok eq_refl) as [_ Hsc]. simpl in Hsc.
    by rewrite Hsc.
  - rewrite (batch_export_meshes_abort _ _ _ _ _ _ _ Hr) in Hrun. discriminate.
Qed.

Lemma selection_and_active_restored_witness :
  let w := init_world example_scene in
  let r := batch_export_meshes out_host "/out" true "FBX" "SM_" w in
  fst r = Ok tt ∧
  selected_objects (scene (snd r)) = [0; 1]%nat ∧
  active (scene (snd r)) = Some 0%nat.
Proof.
  split; [reflexivity|].
  apply (selection_and_active_restored out_host "/out" true "FBX" "SM_"
           (init_world example_scene)
           (snd (batch_export_meshes out_host "/out" true "FBX" "SM_" (init_world example_scene)))).
  vm_compute; reflexivity.
Defined.

(** C2.  On the path [/out/ignored_filename.fbx], [execute] strips
    nothing: it looks for a backslash, finds none, and keeps the whole
    path as its directory, which is not [/out]; on a host where [/out] is
    a directory the command then warns and exports nothing.  A path
    written with backslashes does lose its file part. *)
Theorem execute_directory_keeps_posix_filename :
  execute_directory "/out/ignored_filename.fbx" = "/out/ignored_filename.fbx" ∧
  execute_directory "/out/ignored_filename.fbx" ≠ "/out" ∧
  (let r := execute out_host (mkBatchExport "/out/ignored_filename.fbx" true "SM_" "FBX")
              (init_world example_scene) in
   exported (snd r) = [] ∧
   reports (snd r) = [("WARNING", "Please select a valid path")]) ∧
  execute_directory "C:\out\ignored_filename.fbx" = "C:\out".
Proof. cbv zeta. split_and!; first [reflexivity | discriminate]. Qed.

(** C6.  When the resolved path is not an existing directory, [execute]
    reports the warning and returns [{'FINISHED'}] without raising; the
    scene, the exporter invocations and the history of mutations are what
    they were, so nothing was exported and nothing touched. *)
Theorem invalid_directory_warns h self w :
  os_path_isdir h (execute_directory (filepath self)) = false →
  execute h self w =
    (Ok ["FINISHED"],
     mkWorld (scene w) (exported w)
       (reports w ++ [("WARNING", "Please select a valid path")]) (history w)).
Proof.
  intros Hdir. unfold execute. rewrite bind_run, Hdir. reflexivity.
Qed.

Lemma invalid_directory_warns_witness :
  execute out_host (mkBatchExport "/nowhere/file.fbx" true "SM_" "FBX") (init_world example_scene) =
    (Ok ["FINISHED"],
     mkWorld example_scene [] [("WARNING", "Please select a valid path")] []).
Proof.
  apply (invalid_directory_warns out_host
           (mkBatchExport "/nowhere/file.fbx" true "SM_" "FBX") (init_world example_scene)).
  reflexivity.
Defined.

(** C7.  With an empty directory and no directory to take from the
    project file (the blend file is not saved), [batch_export_meshes]
    raises "Blend file is not saved" and the world is the one it was
    given: no selection change, no location change, no exporter call. *)
Theorem unsaved_project_aborts h fl ft pre w :
  os_path_dirname h (data_filepath (scene w)) = "" →
  batch_export_meshes h "" fl ft pre w = (Raise (Exception "Blend file is not saved"), w).
Proof.
  intros Hdir. apply batch_export_meshes_abort.
  destruct (resolve_basedir_cases h "" w) as [(b & Hne & _ & Hb)|(_ & _ & Hr)]; [|done].
  rewrite decide_True in Hb by done. congruence.
Qed.

Lemma unsaved_project_aborts_witness :
  batch_export_meshes out_host "" true "FBX" "SM_" (init_world unsaved_scene) =
    (Raise (Exception "Blend file is not saved"), init_world unsaved_scene).
Proof.
  apply (unsaved_project_aborts out_host true "FBX" "SM_" (init_world unsaved_scene)).
  reflexivity.
Defined.



(** C4.  Every exporter invocation of the routine is for an eligible
    object of the selection and writes to the directory joined with
    prefix + sanitized name, followed by the extension of the format;
    with an empty prefix the name is the sanitized name alone.  When the
    routine finishes on a format of the enum, the files are exactly those
    of the eligible selected objects, in the order of the selection. *)
Theorem export_filename_is_prefix_name_extension h directory fl ft pre w basedir :
  resolve_basedir h directory w = (Ok basedir, w) →
  let r := batch_export_meshes h directory fl ft pre w in
  ∃ calls,
    exported (snd r) = (exported w ++ calls)%list ∧
    (∀ c, c ∈ calls →
       ∃ i o, i ∈ selected_objects (scene w) ∧ objects (scene w) !! i = Some o ∧
              eligible o = true ∧
              call_filepath c =
                (os_path_join h basedir (pre ++ clean_name h (name o)) ++ spec_extension ft)%string ∧
              (pre = "" →
               call_filepath c =
                 (os_path_join h basedir (clean_name h (name o)) ++ spec_extension ft)%string)) ∧
    (fst r = Ok tt → ft ∈ file_type_items →
       call_filepath <$> calls =
         omap (λ i, match objects (scene w) !! i with
                    | Some o =>
                        if eligible o
                        then Some (os_path_join h basedir (pre ++ clean_name h (name o))
                                     ++ spec_extension ft)%string
                        else None
                    | None => None
                    end) (selected_objects (scene w))).
Proof.
  intros Hb. cbv zeta.
  destruct (batch_export_meshes_spec h directory fl ft pre w basedir Hb)
    as (calls & Hexp & [rest Hpre] & _ & Hok & _).
  exists calls. split; [done|]. split.
  - intros c Hc.
    assert (Hin : c ∈ spec_calls h basedir fl ft pre (set_select false <$> objects (scene w))
                      (data_filepath (scene w)) (selected_objects (scene w))).
    { rewrite Hpre. apply elem_of_app. by left. }
    apply elem_of_spec_calls in Hin as (i & oD & e & ext & fmt & Hi & HoD & Hel & Hft & ->).
    rewrite list_lookup_fmap in HoD.
    destruct (objects (scene w) !! i) as [o|] eqn:Ho; [|done].
    injection HoD as <-. exists i, o. unfold spec_extension. rewrite Hft. simpl.
    split_and!; try done. by intros ->.
  - intros Hfin Hft. destruct (Hok Hfin) as [-> _].
    apply filepaths_spec_calls. by apply known_file_type.
Qed.

Lemma export_filename_is_prefix_name_extension_witness :
  let r := batch_export_meshes out_host "/out" true "FBX" "SM_" (init_world example_scene) in
  call_filepath <$> exported (snd r) = ["/out/SM_MeshA.fbx"].
Proof.
  destruct (export_filename_is_prefix_name_extension out_host "/out" true "FBX" "SM_"
              (init_world example_scene) "/out" eq_refl) as (calls & Hexp & _ & Hok).
  cbv zeta. rewrite Hexp. exact (Hok eq_refl ltac:(vm_compute; left)).
Defined.

(** C5.  With the format DAE every exporter invocation of the routine is
    an invocation of the FBX exporter on a path that ends in ".dae"; when
    the routine finishes there is one such invocation for each eligible
    object of the selection.  And the exporter is invoked: in object
    mode, with a directory to export into and an eligible object in the
    selection, at least one invocation is made, whether or not the
    exporter then finishes. *)
Theorem dae_invokes_fbx_exporter h directory fl pre w :
  let r := batch_export_meshes h directory fl "DAE" pre w in
  ∃ calls,
    exported (snd r) = (exported w ++ calls)%list ∧
    (∀ c, c ∈ calls →
       exporter c = export_scene_fbx ∧
       ∃ stem, call_filepath c = (stem ++ ".dae")%string) ∧
    (fst r = Ok tt →
       length calls =
         length (List.filter (eligible_at (objects (scene w))) (selected_objects (scene w)))) ∧
    (∀ basedir i,
       resolve_basedir h directory w = (Ok basedir, w) →
       mode (scene w) = "OBJECT" →
       i ∈ selected_objects (scene w) →
       eligible_at (objects (scene w)) i = true →
       ∃ c rest, calls = c :: rest).
Proof.
  cbv zeta.
  destruct (resolve_basedir_cases h directory w) as [(b & _ & Hb & _)|(_ & _ & Hr)].
  - destruct (batch_export_meshes_spec h directory fl "DAE" pre w b Hb)
      as (calls & Hexp & [rest Hpre] & _ & Hok & Hfin).
    assert (Hlen : length (spec_calls h b fl "DAE" pre (set_select false <$> objects (scene w))
                             (data_filepath (scene w)) (selected_objects (scene w))) =
                   length (List.filter (eligible_at (objects (scene w)))
                             (selected_objects (scene w)))).
    { rewrite length_spec_calls by (by eexists). f_equal.
      apply filter_ext. intros i. apply eligible_at_deselected. }
    exists calls. split; [done|]. split_and!.
    + intros c Hc.
      assert (Hin : c ∈ spec_calls h b fl "DAE" pre (set_select false <$> objects (scene w))
                        (data_filepath (scene w)) (selected_objects (scene w))).
      { rewrite Hpre. apply elem_of_app. by left. }
      apply elem_of_spec_calls in Hin as (i & oD & e & ext & fmt & _ & _ & _ & Hft & ->).
      injection Hft as <- <- <-. simpl. eauto.
    + intros Hdone. destruct (Hok Hdone) as [-> _]. exact Hlen.
    + intros b' i _ Hm Hi Hel. destruct calls as [|c cs]; [|by eauto].
      exfalso.
      assert (Hdone : fst (batch_export_meshes h directory fl "DAE" pre w) = Ok tt).
      { apply Hfin; [done|]. by intros c ?%elem_of_nil. }
      destruct (Hok Hdone) as [Hnil _]. rewrite <- Hnil in Hlen. simpl in Hlen.
      assert (Hin : i ∈ List.filter (eligible_at (objects (scene w)))
                         (selected_objects (scene w))).
      { apply list_elem_of_In, filter_In. split; [by apply list_elem_of_In|done]. }
      destruct (List.filter _ _); [by apply elem_of_nil in Hin | discriminate].
  - rewrite (batch_export_meshes_abort _ _ _ _ _ _ _ Hr). exists []. simpl.
    rewrite app_nil_r. split_and!; [done| |done|].
    + by intros c ?%elem_of_nil.
    + intros b' i Hb'. rewrite Hr in Hb'. discriminate.
Qed.

Lemma dae_invokes_fbx_exporter_witness :
  let r := batch_export_meshes out_host "/out" true "DAE" "SM_" (init_world example_scene) in
  ∃ c rest,
    exported (snd r) = c :: rest ∧
    exporter c = export_scene_fbx ∧
    ∃ stem, call_filepath c = (stem ++ ".dae")%string.
Proof.
  destruct (dae_invokes_fbx_exporter out_host "/out" true "SM_" (init_world example_scene))
    as (calls & Hexp & Hall & _ & Hsome).
  destruct (Hsome "/out" 0%nat eq_refl eq_refl ltac:(vm_compute; left) eq_refl)
    as (c & rest & ->).
  exists c, rest. split; [exact Hexp|]. apply Hall. left.
Defined.

(** C8.  With freeze-locations off, in every scene the routine produces
    along the way (each entry it adds to the history of mutations) and in
    the scene it leaves, whether it finishes or raises, every object is
    at the location it had before the call. *)
Theorem unfrozen_locations_never_altered h directory ft pre w :
  let r := batch_export_meshes h directory false ft pre w in
  ∃ new,
    history (snd r) = (new ++ history w)%list ∧
    ∀ s, s ∈ scene (snd r) :: new →
      ∀ i, location <$> objects s !! i = location <$> objects (scene w) !! i.
Proof.
  cbv zeta.
  assert (H0 : locations_kept (location <$> objects (scene w)) (history w) w).
  { split; [done|]. exists []. split; [done|]. by intros s ?%elem_of_nil. }
  apply (batch_export_meshes_keeps_locations _ _ h directory ft pre) in H0
    as (Hnow & new & Hhist & Hnew).
  exists new. split; [done|].
  intros s Hs i. rewrite <- !list_lookup_fmap.
  apply elem_of_cons in Hs as [->|Hs]; [by rewrite Hnow | by rewrite (Hnew s Hs)].
Qed.

(** C9.  When every selected object is neither a mesh nor an armature,
    the routine invokes no exporter (so no file is written) and leaves
    the scene, hence the selection and the active object, as it was.  It
    raises nothing for the skipped objects: it finishes without an error,
    except that with no directory to be determined it raises "Blend file
    is not saved", and outside object mode the call of [select_all]
    raises; both before anything is touched, the world being the one it
    was given. *)
Theorem ineligible_selection_exports_nothing h directory fl ft pre w :
  (∀ i o, i ∈ selected_objects (scene w) → objects (scene w) !! i = Some o →
          type o ≠ "MESH" ∧ type o ≠ "ARMATURE") →
  let r := batch_export_meshes h directory fl ft pre w in
  exported (snd r) = exported w ∧
  scene (snd r) = scene w ∧
  (fst r = Ok tt ∨
   (directory = "" ∧ os_path_dirname h (data_filepath (scene w)) = "" ∧
    r = (Raise (Exception "Blend file is not saved"), w)) ∨
   (mode (scene w) ≠ "OBJECT" ∧ r = (Raise poll_failed, w))).
Proof.
  intros Hskip. cbv zeta.
  destruct (resolve_basedir_cases h directory w) as [(b & _ & Hb & _)|(Hd & Hdir & Hr)].
  - destruct (decide (mode (scene w) = "OBJECT")) as [Hmode|Hmode]; cycle 1.
    { rewrite (batch_export_meshes_poll_fails _ _ _ _ _ _ _ Hb Hmode). simpl.
      split_and!; [done|done|]. right. by right. }
    destruct (batch_export_meshes_spec h directory fl ft pre w b Hb)
      as (calls & Hexp & Hpre & _ & Hok & Hfin).
    assert (Hnone : spec_calls h b fl ft pre (set_select false <$> objects (scene w))
                      (data_filepath (scene w)) (selected_objects (scene w)) = []).
    { destruct (spec_calls _ _ _ _ _ _ _ _) as [|c cs] eqn:Hcs; [done|].
      assert (Hc : c ∈ c :: cs) by left. rewrite <- Hcs in Hc.
      apply elem_of_spec_calls in Hc as (i & oD & e & ext & fmt & Hi & HoD & Hel & _).
      rewrite list_lookup_fmap in HoD.
      destruct (objects (scene w) !! i) as [o|] eqn:Ho; [|done].
      injection HoD as <-. destruct (Hskip i o Hi Ho) as [Hm Ha].
      unfold eligible in Hel. simpl in Hel.
      apply orb_true_iff in Hel as [?%String.eqb_eq|?%String.eqb_eq]; done. }
    rewrite Hnone in Hpre, Hok. apply prefix_nil_inv in Hpre as ->.
    assert (Hdone : fst (batch_export_meshes h directory fl ft pre w) = Ok tt).
    { apply Hfin; [done|]. by intros c ?%elem_of_nil. }
    destruct (Hok Hdone) as [_ Hsc]. rewrite app_nil_r in Hexp.
    split_and!; [done|done|by left].
  - rewrite (batch_export_meshes_abort _ _ _ _ _ _ _ Hr). simpl.
    split_and!; [done|done|]. right. by left.
Qed.

Lemma ineligible_selection_exports_nothing_witness :
  let r := batch_export_meshes out_host "/out" true "FBX" "SM_" (init_world lights_scene) in
  exported (snd r) = [] ∧
  scene (snd r) = lights_scene ∧
  (fst r = Ok tt ∨
   ("/out" = "" ∧ Posix.dirname "/home/user/project.blend" = "" ∧
    r = (Raise (Exception "Blend file is not saved"), init_world lights_scene)) ∨
   ("OBJECT" ≠ "OBJECT" ∧ r = (Raise poll_failed, init_world lights_scene))).
Proof.
  apply (ineligible_selection_exports_nothing out_host "/out" true "FBX" "SM_"
           (init_world lights_scene)).
  intros i o Hi Ho. vm_compute in Hi. apply list_elem_of_singleton in Hi. subst i.
  vm_compute in Ho. injection Ho as <-. split; discriminate.
Defined.

(** C10.  On a host where the empty path is not a directory: when
    [execute] reaches the routine (the directory passed the [isdir]
    test), the directory is not empty and the routine takes it as its
    base directory, whatever the project file is; and [execute] never
    ends with the script's own exception "Blend file is not saved" (nor
    any other [Exception]). *)
Theorem execute_never_takes_fallback h self w :
  os_path_isdir h "" = false →
  let directory := execute_directory (filepath self) in
  (os_path_isdir h directory = true →
     directory ≠ "" ∧ resolve_basedir h directory w = (Ok directory, w)) ∧
  (∀ msg, fst (execute h self w) ≠ Raise (Exception msg)).
Proof.
  intros Hempty directory.
  assert (Hreach : os_path_isdir h directory = true →
            directory ≠ "" ∧ resolve_basedir h directory w = (Ok directory, w)).
  { intros Hdir. assert (Hne : directory ≠ "") by (intros Heq; congruence).
    split; [done|].
    destruct (resolve_basedir_cases h directory w) as [(b & _ & Hb & Heq)|(? & _)]; [|done].
    rewrite decide_False in Heq by done. by subst b. }
  split; [done|].
  intros msg. unfold execute. fold directory. rewrite bind_run.
  destruct (os_path_isdir h directory) eqn:Hdir; [|done].
  destruct (Hreach eq_refl) as [_ Hb]. cbn [negb].
  pose proof (batch_export_meshes_raises_host_errors h directory (freeze_locations self)
                (file_type self) (mesh_name_prefix self) w directory Hb) as Hraise.
  destruct (batch_export_meshes h directory _ _ _ w) as [[[]|e] w1]; [done|].
  simpl. intros [= ->]. by apply (Hraise _ eq_refl).
Qed.

Lemma execute_never_takes_fallback_witness :
  let self := mkBatchExport "C:\out\ignored_filename.fbx" true "SM_" "FBX" in
  let w := init_world unsaved_scene in
  (os_path_isdir (Posix.host ["C:\out"]) "C:\out" = true →
     "C:\out" ≠ "" ∧ resolve_basedir (Posix.host ["C:\out"]) "C:\out" w = (Ok "C:\out", w)) ∧
  (∀ msg, fst (execute (Posix.host ["C:\out"]) self w) ≠ Raise (Exception msg)).
Proof.
  apply (execute_never_takes_fallback (Posix.host ["C:\out"])
           (mkBatchExport "C:\out\ignored_filename.fbx" true "SM_" "FBX")
           (init_world unsaved_scene)).
  reflexivity.
Defined.

(** ** The routine as a whole, and the specification's example *)

(** Seen from the routine: with freeze-locations on, every exporter
    invocation is for an eligible object of the selection, which the
    exporter sees active, selected and at the origin, under its own name. *)
Lemma batch_export_meshes_frozen_calls h directory ft pre w basedir :
  resolve_basedir h directory w = (Ok basedir, w) →
  let r := batch_export_meshes h directory true ft pre w in
  ∃ calls,
    exported (snd r) = (exported w ++ calls)%list ∧
    ∀ c, c ∈ calls →
      ∃ i o oc, i ∈ selected_objects (scene w) ∧ objects (scene w) !! i = Some o ∧
                eligible o = true ∧ active (scene_at_call c) = Some i ∧
                objects (scene_at_call c) !! i = Some oc ∧
                name oc = name o ∧ select oc = true ∧ location oc = origin.
Proof.
  intros Hb. cbv zeta.
  destruct (batch_export_meshes_spec h directory true ft pre w basedir Hb)
    as (calls & Hexp & [rest Hpre] & _).
  exists calls. split; [done|]. intros c Hc.
  assert (Hin : c ∈ spec_calls h basedir true ft pre (set_select false <$> objects (scene w))
                    (data_filepath (scene w)) (selected_objects (scene w))).
  { rewrite Hpre. apply elem_of_app. by left. }
  apply elem_of_spec_calls in Hin as (i & oD & e & ext & fmt & Hi & HoD & Hel & _ & ->).
  pose proof HoD as HoD'. rewrite list_lookup_fmap in HoD'.
  destruct (objects (scene w) !! i) as [o|] eqn:Ho; [|done].
  injection HoD' as <-. exists i, o, (staged true (set_select false o)). simpl.
  rewrite list_lookup_alter_eq, HoD. done.
Qed.

(** Section 8 of the specification: a mesh and a light selected, prefix
    "SM_", FBX, frozen, directory "/out".  Exactly one file is written,
    "/out/SM_MeshA.fbx", by the FBX exporter, which sees the mesh alone
    selected and at the origin; afterwards the scene is as before. *)
Example specification_example :
  let r := batch_export_meshes out_host "/out" true "FBX" "SM_" (init_world example_scene) in
  fst r = Ok tt ∧
  scene (snd r) = example_scene ∧
  (λ c, (exporter c, call_filepath c, selected_objects (scene_at_call c),
         location <$> objects (scene_at_call c) !! 0%nat)) <$> exported (snd r)
    = [(export_scene_fbx, "/out/SM_MeshA.fbx", [0%nat], Some origin)].
Proof. cbv zeta. split_and!; reflexivity. Qed.

(** * Further properties of the script *)

(** ** The directory of [execute] *)

Lemma prefix_char c s :
  String.prefix (String c "") s =
    match s with
    | EmptyString => false
    | String a _ => Ascii.eqb a c
    end.
Proof.
  destruct s as [|a r]; simpl; [done|].
  destruct (ascii_dec c a) as [->|Hne].
  - rewrite Ascii.eqb_refl. by destruct r.
  - symmetry. apply Ascii.eqb_neq. congruence.
Qed.

Lemma rfind_from_absent c s i acc :
  occurs c s = false → Py.rfind_from (String c "") s i acc = acc.
Proof.
  revert i acc. induction s as [|a r IH]; intros i acc Hocc; simpl in Hocc.
  - done.
  - apply orb_false_iff in Hocc as [Ha Hr].
    cbn [Py.rfind_from]. rewrite prefix_char, Ha. by apply IH.
Qed.

Lemma rfind_from_last c d f i acc :
  occurs c f = false →
  Py.rfind_from (String c "") (d ++ String c f) i acc = i + Z.of_nat (String.length d).
Proof.
  intros Hf. revert i acc. induction d as [|a d IH]; intros i acc.
  - change ("" ++ String c f) with (String c f).
    cbn [Py.rfind_from]. rewrite prefix_char, Ascii.eqb_refl.
    rewrite rfind_from_absent by done. simpl. lia.
  - change (String a d ++ String c f) with (String a (d ++ String c f)).
    cbn [Py.rfind_from String.length]. rewrite IH. lia.
Qed.

Lemma substring_app_l d s :
  String.substring 0 (String.length d) (d ++ s) = d.
Proof.
  induction d as [|a d IH].
  - change ("" ++ s) with s. by destruct s.
  - change (String a d ++ s) with (String a (d ++ s)). simpl. by rewrite IH.
Qed.

(** X1.  A path written with backslashes loses everything from its last
    backslash on: for [d\f] with no backslash in [f], the directory
    [execute] validates and exports into is [d]. *)
Theorem execute_directory_strips_after_last_backslash d f :
  occurs (ascii_of_nat 92) f = false →
  execute_directory (d ++ backslash ++ f) = d.
Proof.
  intros Hf. unfold execute_directory, Py.rfind, backslash.
  change (String (ascii_of_nat 92) "" ++ f) with (String (ascii_of_nat 92) f).
  rewrite rfind_from_last by done.
  replace (0 + Z.of_nat (String.length d) =? -1) with false
    by (symmetry; apply Z.eqb_neq; lia).
  cbn [negb]. unfold Py.slice_to.
  replace (0 + Z.of_nat (String.length d) <? 0) with false
    by (symmetry; apply Z.ltb_ge; lia).
  rewrite Z.add_0_l, Nat2Z.id. apply substring_app_l.
Qed.

Lemma execute_directory_strips_after_last_backslash_witness :
  execute_directory ("C:\projects\out" ++ backslash ++ "ignored.fbx") = "C:\projects\out".
Proof.
  apply (execute_directory_strips_after_last_backslash "C:\projects\out" "ignored.fbx").
  reflexivity.
Defined.

(** X2.  A path without any backslash is taken as the directory as it
    is, file part included. *)
Theorem execute_directory_without_backslash p :
  occurs (ascii_of_nat 92) p = false →
  execute_directory p = p.
Proof.
  intros Hp. unfold execute_directory, Py.rfind, backslash.
  by rewrite rfind_from_absent.
Qed.

Lemma execute_directory_without_backslash_witness :
  execute_directory "/home/user/out/scene.fbx" = "/home/user/out/scene.fbx".
Proof.
  apply (execute_directory_without_backslash "/home/user/out/scene.fbx"). reflexivity.
Defined.

(** ** What the selection looks like during a turn *)

Lemma selected_from_deselected k (l : list Object) :
  (∀ o, o ∈ l → select o = false) → selected_from k l = [].
Proof.
  revert k. induction l as [|o l IH]; intros k Hl; [done|].
  simpl. rewrite (Hl o) by left. apply IH. intros o' Ho'. apply Hl. by right.
Qed.

Lemma selected_from_alter k (l : list Object) f i o :
  (∀ o, o ∈ l → select o = false) → l !! i = Some o → select (f o) = true →
  selected_from k (alter f i l) = [(k + i)%nat].
Proof.
  revert k i. induction l as [|a l IH]; intros k i Hl Hi Hf; [done|].
  assert (Hl' : ∀ o', o' ∈ l → select o' = false) by (intros o' Ho'; apply Hl; by right).
  destruct i as [|i]; simpl in *.
  - injection Hi as ->. rewrite Hf, selected_from_deselected by done.
    by rewrite Nat.add_0_r.
  - rewrite (Hl a) by left. change (list_alter f i l) with (alter f i l).
    rewrite (IH (S k) i) by done. f_equal. lia.
Qed.

(** ** How a run ends *)

Section Outcome.

Variable h : Host.
Variables (basedir : string) (fl : bool) (ft pre : string).
Variables (D : list Object) (fp : string).

Hypothesis D_deselected : ∀ o, o ∈ D → select o = false.

(** A turn that finishes had its exporter finish; a turn on an existing
    object raises only because its exporter did, and then stops in the
    scene the exporter was given. *)
Lemma loop_body_outcome i w :
  objects (scene w) = D → data_filepath (scene w) = fp → mode (scene w) = "OBJECT" →
  let r := loop_body h basedir fl ft pre i w in
  (fst r = Ok tt →
     ∀ c, c ∈ spec_call h basedir fl ft pre D fp i → exporter_finishes h c = true) ∧
  (∀ e, fst r = Raise e → (i < length D)%nat →
     ∃ c, spec_call h basedir fl ft pre D fp i = [c] ∧
          exporter_finishes h c = false ∧
          e = RuntimeError "export operator failed" ∧
          scene (snd r) = scene_at_call c ∧
          exported (snd r) = (exported w ++ [c])%list).
Proof.
  intros HD Hfp Hm. unfold spec_call. destruct (D !! i) as [o|] eqn:Hi.
  - destruct (eligible o) eqn:Hel.
    + rewrite <- HD in Hi. simpl.
      rewrite (loop_body_run _ _ _ _ _ _ _ _ Hi Hel). cbv zeta.
      rewrite export_as_spec.
      pose proof (staged_scene fl D fp D_deselected i w HD Hfp Hm) as Hst.
      set (w3 := commit (with_active (Some i)) _) in *.
      assert (He3 : exported w3 = exported w) by (unfold w3; by destruct fl).
      clearbody w3.
      destruct (spec_format ft) as [[[e ext] fmt]|].
      * rewrite invoke_run. cbv zeta. rewrite Hst, He3.
        set (c := mkExportCall _ _ _ _ _).
        destruct (exporter_finishes h c) eqn:Hfin; simpl.
        -- split; [|done]. by intros _ c' ->%list_elem_of_singleton.
        -- split; [done|]. intros e' [= <-] _. exists c. done.
      * simpl. split; [|done]. by intros _ c ?%elem_of_nil.
    + rewrite <- HD in Hi. simpl. rewrite (loop_body_skip _ _ _ _ _ _ _ _ Hi Hel).
      simpl. split; [|done]. by intros _ c ?%elem_of_nil.
  - simpl. split; [by intros _ c ?%elem_of_nil|].
    intros e _ Hlt. apply lookup_ge_None in Hi. lia.
Qed.

(** The loop finishes only when every expected exporter invocation did;
    it raises only because an exporter did, right after the invocations
    that finished, and then stops in the scene that exporter was given. *)
Lemma loop_outcome l w :
  objects (scene w) = D → data_filepath (scene w) = fp → mode (scene w) = "OBJECT" →
  (∀ i, i ∈ l → (i < length D)%nat) →
  let r := for_each l (loop_body h basedir fl ft pre) w in
  (fst r = Ok tt →
     ∀ c, c ∈ spec_calls h basedir fl ft pre D fp l → exporter_finishes h c = true) ∧
  (∀ e, fst r = Raise e →
     ∃ before c,
       exported (snd r) = (exported w ++ before ++ [c])%list ∧
       (before ++ [c])%list `prefix_of` spec_calls h basedir fl ft pre D fp l ∧
       (∀ c', c' ∈ before → exporter_finishes h c' = true) ∧
       exporter_finishes h c = false ∧
       e = RuntimeError "export operator failed" ∧
       scene (snd r) = scene_at_call c).
Proof.
  revert w. induction l as [|i l IH]; intros w HD Hfp Hm Hval.
  - simpl. split; [by intros _ c ?%elem_of_nil | done].
  - cbv zeta. rewrite for_each_cons.
    change (spec_calls h basedir fl ft pre D fp (i :: l))
      with (spec_call h basedir fl ft pre D fp i ++ spec_calls h basedir fl ft pre D fp l)%list.
    destruct (loop_body_spec h basedir fl ft pre D fp D_deselected i w HD Hfp Hm)
      as (c1 & Hexp1 & _ & _ & Hfp1 & Hok1 & _).
    destruct (loop_body_outcome i w HD Hfp Hm) as [Hfin1 Hraise1].
    pose proof (loop_body_mode h basedir fl ft pre i w) as Hm1. rewrite Hm in Hm1.
    destruct (loop_body h basedir fl ft pre i w) as [[[]|e1] w1]; simpl in *.
    + destruct (Hok1 eq_refl) as [-> HD1].
      destruct (IH w1 HD1 Hfp1 Hm1) as [Hfin2 Hraise2].
      { intros j Hj. apply Hval. by right. }
      split.
      * intros Hok c [Hc|Hc]%elem_of_app; [by apply Hfin1 | by apply Hfin2].
      * intros e He. destruct (Hraise2 e He) as (before & c & Hexp & Hpre & Hbef & Hc & -> & Hsc).
        exists (spec_call h basedir fl ft pre D fp i ++ before)%list, c.
        rewrite Hexp, Hexp1, <- !(assoc_L (++)).
        split_and!; try done.
        -- by apply prefix_app.
        -- intros c' [Hc'|Hc']%elem_of_app; [by apply Hfin1 | by apply Hbef].
    + split; [done|]. intros e [= <-].
      destruct (Hraise1 e1 eq_refl) as (c & Hcall & Hc & -> & Hsc & Hexp).
      { apply Hval. by left. }
      exists [], c. rewrite Hcall. simpl. split_and!; try done.
      * by eexists.
      * by intros c' ?%elem_of_nil.
Qed.

End Outcome.

(** The routine, in object mode and once the directory is known, ends in
    one of two ways: normally, every expected exporter invocation having
    finished; or with the error of the first exporter that raised, in the
    scene that exporter was given. *)
Lemma batch_export_meshes_outcome h d fl ft pre w b :
  resolve_basedir h d w = (Ok b, w) → mode (scene w) = "OBJECT" →
  let D := set_select false <$> objects (scene w) in
  let expected :=
    spec_calls h b fl ft pre D (data_filepath (scene w)) (selected_objects (scene w)) in
  let r := batch_export_meshes h d fl ft pre w in
  (fst r = Ok tt → ∀ c, c ∈ expected → exporter_finishes h c = true) ∧
  (∀ e, fst r = Raise e →
     ∃ before c,
       exported (snd r) = (exported w ++ before ++ [c])%list ∧
       (before ++ [c])%list `prefix_of` expected ∧
       (∀ c', c' ∈ before → exporter_finishes h c' = true) ∧
       exporter_finishes h c = false ∧
       e = RuntimeError "export operator failed" ∧
       scene (snd r) = scene_at_call c).
Proof.
  intros Hb Hm D expected. rewrite (batch_export_meshes_run _ _ _ _ _ _ _ Hb Hm). cbv zeta.
  set (wd := commit (with_objects (fmap (set_select false))) w).
  assert (Hdes : ∀ o, o ∈ D → select o = false).
  { intros o (o' & -> & _)%list_elem_of_fmap. done. }
  assert (Hval : ∀ i, i ∈ selected_objects (scene w) → (i < length D)%nat).
  { intros i Hi. unfold D. rewrite length_fmap. by apply selected_objects_valid. }
  destruct (loop_outcome h b fl ft pre D (data_filepath (scene w)) Hdes
              (selected_objects (scene w)) wd eq_refl eq_refl Hm Hval) as [Hfin Hraise].
  destruct (loop_spec h b fl ft pre D (data_filepath (scene w)) Hdes
              (selected_objects (scene w)) wd eq_refl eq_refl Hm)
    as (calls & _ & _ & _ & _ & Hok & _).
  fold expected in Hfin, Hraise.
  destruct (for_each (selected_objects (scene w)) (loop_body h b fl ft pre) wd)
    as [[[]|e] w1]; simpl in Hfin, Hraise, Hok.
  - destruct (Hok eq_refl) as [_ HD1].
    destruct (reselect_run (selected_objects (scene w))
                (commit (with_active (active (scene w))) w1))
      as (w' & Hrun & _).
    { intros i Hi. simpl. rewrite HD1. by apply Hval. }
    rewrite Hrun. simpl. split; [by intros _; apply Hfin | done].
  - simpl. split; [done|]. intros e' He'. by apply Hraise.
Qed.

(** ** The scene an exporter is given *)

Lemma staged_scene_facts fl (objs : list Object) fp i o :
  objs !! i = Some o →
  let s := mkScene (alter (staged fl) i (set_select false <$> objs)) (Some i) fp "OBJECT" in
  selected_objects s = [i] ∧
  active s = Some i ∧
  ∀ j oj, objs !! j = Some oj →
    objects s !! j =
      Some (mkObject (name oj) (type oj)
              (if decide (j = i) then (if fl then origin else location oj) else location oj)
              (bool_decide (j = i))).
Proof.
  intros Hi. cbv zeta. split_and!; [|done|].
  - unfold selected_objects. simpl.
    rewrite (selected_from_alter 0 _ _ i (set_select false o)); [done| |by rewrite list_lookup_fmap, Hi|done].
    intros o' (o'' & -> & _)%list_elem_of_fmap. done.
  - intros j oj Hj. simpl. destruct (decide (j = i)) as [->|Hne].
    + rewrite list_lookup_alter_eq, list_lookup_fmap, Hj. simpl.
      by rewrite bool_decide_eq_true_2.
    + rewrite list_lookup_alter_ne by done. rewrite list_lookup_fmap, Hj. simpl.
      by rewrite bool_decide_eq_false_2.
Qed.

(** X3.  Every exporter invocation of the routine is made with
    [use_selection=True] in a scene where the object being exported, an
    eligible object of the original selection, is the only selected
    object and the active one; it stands at the origin when locations are
    frozen and where it was otherwise; every other object is deselected
    and where it was; nothing is renamed or retyped. *)
Theorem exporter_sees_only_its_object h directory fl ft pre w basedir :
  resolve_basedir h directory w = (Ok basedir, w) →
  let r := batch_export_meshes h directory fl ft pre w in
  ∃ calls,
    exported (snd r) = (exported w ++ calls)%list ∧
    ∀ c, c ∈ calls →
      ∃ i o, i ∈ selected_objects (scene w) ∧ objects (scene w) !! i = Some o ∧
             eligible o = true ∧ use_selection c = true ∧
             selected_objects (scene_at_call c) = [i] ∧
             active (scene_at_call c) = Some i ∧
             ∀ j oj, objects (scene w) !! j = Some oj →
               objects (scene_at_call c) !! j =
                 Some (mkObject (name oj) (type oj)
                         (if decide (j = i)
                          then (if fl then origin else location oj)
                          else location oj)
                         (bool_decide (j = i))).
Proof.
  intros Hb. cbv zeta.
  destruct (batch_export_meshes_spec h directory fl ft pre w basedir Hb)
    as (calls & Hexp & [rest Hpre] & _).
  exists calls. split; [done|]. intros c Hc.
  assert (Hin : c ∈ spec_calls h basedir fl ft pre (set_select false <$> objects (scene w))
                    (data_filepath (scene w)) (selected_objects (scene w))).
  { rewrite Hpre. apply elem_of_app. by left. }
  apply elem_of_spec_calls in Hin as (i & oD & e & ext & fmt & Hi & HoD & Hel & _ & ->).
  rewrite list_lookup_fmap in HoD.
  destruct (objects (scene w) !! i) as [o|] eqn:Ho; [|done].
  injection HoD as <-.
  destruct (staged_scene_facts fl (objects (scene w)) (data_filepath (scene w)) i o Ho)
    as (Hsel & Hact & Hobj).
  exists i, o. simpl. split_and!; done.
Qed.

Lemma exporter_sees_only_its_object_witness :
  let r := batch_export_meshes out_host "/out" true "OBJ" "" (init_world meshes_scene) in
  ∃ calls,
    exported (snd r) = ([] ++ calls)%list ∧
    ∀ c, c ∈ calls →
      ∃ i o, i ∈ selected_objects meshes_scene ∧ objects meshes_scene !! i = Some o ∧
             eligible o = true ∧ use_selection c = true ∧
             selected_objects (scene_at_call c) = [i] ∧
             active (scene_at_call c) = Some i ∧
             ∀ j oj, objects meshes_scene !! j = Some oj →
               objects (scene_at_call c) !! j =
                 Some (mkObject (name oj) (type oj)
                         (if decide (j = i) then (if true then origin else location oj)
                          else location oj)
                         (bool_decide (j = i))).
Proof.
  apply (exporter_sees_only_its_object out_host "/out" true "OBJ" ""
           (init_world meshes_scene) "/out").
  reflexivity.
Defined.

(** X4.  When the routine finishes, the whole scene is the one it
    started from: besides the selection and the active object, every
    object has its name, its type and its location back, with locations
    frozen or not. *)
Theorem finished_run_restores_scene h directory fl ft pre w w' :
  batch_export_meshes h directory fl ft pre w = (Ok tt, w') →
  scene w' = scene w ∧
  ∀ i, location <$> objects (scene w') !! i = location <$> objects (scene w) !! i.
Proof.
  intros Hrun.
  assert (Hsc : scene w' = scene w).
  { destruct (resolve_basedir_cases h directory w) as [(b & _ & Hb & _)|(_ & _ & Hr)].
    - destruct (batch_export_meshes_spec h directory fl ft pre w b Hb)
        as (calls & _ & _ & _ & Hok & _).
      rewrite Hrun in Hok. by destruct (Hok eq_refl) as [_ ?].
    - rewrite (batch_export_meshes_abort _ _ _ _ _ _ _ Hr) in Hrun. discriminate. }
  split; [done|]. intros i. by rewrite Hsc.
Qed.

Lemma finished_run_restores_scene_witness :
  let r := batch_export_meshes out_host "/out" true "GLTF" "SM_" (init_world meshes_scene) in
  scene (snd r) = meshes_scene ∧
  ∀ i, location <$> objects (scene (snd r)) !! i = location <$> objects meshes_scene !! i.
Proof.
  apply (finished_run_restores_scene out_host "/out" true "GLTF" "SM_"
           (init_world meshes_scene)
           (snd (batch_export_meshes out_host "/out" true "GLTF" "SM_" (init_world meshes_scene)))).
  vm_compute; reflexivity.
Defined.

(** X5.  In object mode and once the directory is known, the routine
    fails only if an exporter does: on a host whose exporters always
    finish it returns normally, with the scene it started from, and for a
    format of the enum it has invoked one exporter for each eligible
    object of the selection. *)
Theorem run_finishes_when_exporters_do h directory fl ft pre w basedir :
  resolve_basedir h directory w = (Ok basedir, w) →
  mode (scene w) = "OBJECT" →
  (∀ c, exporter_finishes h c = true) →
  let r := batch_export_meshes h directory fl ft pre w in
  fst r = Ok tt ∧
  scene (snd r) = scene w ∧
  (ft ∈ file_type_items →
     ∃ calls, exported (snd r) = (exported w ++ calls)%list ∧
              length calls =
                length (List.filter (eligible_at (objects (scene w)))
                          (selected_objects (scene w)))).
Proof.
  intros Hb Hm Hall. cbv zeta.
  destruct (batch_export_meshes_spec h directory fl ft pre w basedir Hb)
    as (calls & Hexp & _ & _ & Hok & Hfin).
  assert (Hdone : fst (batch_export_meshes h directory fl ft pre w) = Ok tt)
    by (apply Hfin; auto).
  destruct (Hok Hdone) as [-> Hsc]. split_and!; [done|done|].
  intros Hft. eexists. split; [done|].
  rewrite length_spec_calls by (by apply known_file_type). f_equal.
  apply filter_ext. intros i. apply eligible_at_deselected.
Qed.

Lemma run_finishes_when_exporters_do_witness :
  let r := batch_export_meshes out_host "/out" false "OBJ" "SM_" (init_world meshes_scene) in
  fst r = Ok tt ∧
  scene (snd r) = meshes_scene ∧
  ("OBJ" ∈ file_type_items →
     ∃ calls, exported (snd r) = ([] ++ calls)%list ∧ length calls = 2%nat).
Proof.
  apply (run_finishes_when_exporters_do out_host "/out" false "OBJ" "SM_"
           (init_world meshes_scene) "/out"); reflexivity.
Defined.

(** X6.  When the routine raises after the directory is known, it is
    for one of two reasons.  Outside object mode it is the call of
    [select_all], and the world is untouched.  In object mode it is an
    exporter: the exporters invoked before it finished, it is the last
    one invoked, and no further object is exported; the scene is left as
    that exporter was given it, not restored: the object it was
    exporting, an eligible object of the original selection, is the only
    selected object and the active one, and stands at the origin when
    locations are frozen. *)
Theorem routine_raises_at_poll_or_exporter h directory fl ft pre w basedir e w' :
  resolve_basedir h directory w = (Ok basedir, w) →
  batch_export_meshes h directory fl ft pre w = (Raise e, w') →
  (mode (scene w) ≠ "OBJECT" ∧ e = poll_failed ∧ w' = w) ∨
  (mode (scene w) = "OBJECT" ∧
   e = RuntimeError "export operator failed" ∧
   ∃ before c i o,
     exported w' = (exported w ++ before ++ [c])%list ∧
     (∀ c', c' ∈ before → exporter_finishes h c' = true) ∧
     exporter_finishes h c = false ∧
     scene w' = scene_at_call c ∧
     i ∈ selected_objects (scene w) ∧ objects (scene w) !! i = Some o ∧
     eligible o = true ∧
     selected_objects (scene w') = [i] ∧
     active (scene w') = Some i ∧
     location <$> objects (scene w') !! i = Some (if fl then origin else location o)).
Proof.
  intros Hb Hrun.
  destruct (decide (mode (scene w) = "OBJECT")) as [Hm|Hm]; cycle 1.
  { left. rewrite (batch_export_meshes_poll_fails _ _ _ _ _ _ _ Hb Hm) in Hrun.
    by injection Hrun as <- <-. }
  right. split; [done|].
  destruct (batch_export_meshes_outcome h directory fl ft pre w basedir Hb Hm) as [_ Hraise].
  rewrite Hrun in Hraise. simpl in Hraise.
  destruct (Hraise e eq_refl) as (before & c & Hexp & [rest Hpre] & Hbef & Hc & -> & Hsc).
  split; [done|].
  assert (Hin : c ∈ spec_calls h basedir fl ft pre (set_select false <$> objects (scene w))
                    (data_filepath (scene w)) (selected_objects (scene w))).
  { rewrite Hpre. rewrite !elem_of_app. left. right. by left. }
  apply elem_of_spec_calls in Hin as (i & oD & x & ext & fmt & Hi & HoD & Hel & _ & Hceq).
  rewrite list_lookup_fmap in HoD.
  destruct (objects (scene w) !! i) as [o|] eqn:Ho; [|done].
  injection HoD as <-.
  destruct (staged_scene_facts fl (objects (scene w)) (data_filepath (scene w)) i o Ho)
    as (Hsel & Hact & Hobj).
  exists before, c, i, o. rewrite Hsc.
  assert (Hscene : scene_at_call c =
            mkScene (alter (staged fl) i (set_select false <$> objects (scene w))) (Some i)
              (data_filepath (scene w)) "OBJECT") by (by rewrite Hceq).
  rewrite Hscene. split_and!; try done.
  rewrite (Hobj i o Ho). simpl. by rewrite decide_True.
Qed.

Lemma routine_raises_at_poll_or_exporter_witness :
  let r := batch_export_meshes picky_host "/out" true "FBX" "SM_" (init_world meshes_scene) in
  ("OBJECT" ≠ "OBJECT" ∧ RuntimeError "export operator failed" = poll_failed ∧
   snd r = init_world meshes_scene) ∨
  ("OBJECT" = "OBJECT" ∧
   RuntimeError "export operator failed" = RuntimeError "export operator failed" ∧
   ∃ before c i o,
     exported (snd r) = ([] ++ before ++ [c])%list ∧
     (∀ c', c' ∈ before → exporter_finishes picky_host c' = true) ∧
     exporter_finishes picky_host c = false ∧
     scene (snd r) = scene_at_call c ∧
     i ∈ selected_objects meshes_scene ∧ objects meshes_scene !! i = Some o ∧
     eligible o = true ∧
     selected_objects (scene (snd r)) = [i] ∧
     active (scene (snd r)) = Some i ∧
     location <$> objects (scene (snd r)) !! i = Some (if true then origin else location o)).
Proof.
  apply (routine_raises_at_poll_or_exporter picky_host "/out" true "FBX" "SM_"
           (init_world meshes_scene) "/out" (RuntimeError "export operator failed")
           (snd (batch_export_meshes picky_host "/out" true "FBX" "SM_"
                   (init_world meshes_scene)))).
  - reflexivity.
  - vm_compute; reflexivity.
Defined.

(** X7.  A format outside the four of [match file_type] matches no case:
    the routine invokes no exporter and writes nothing, and leaves the
    scene as it was; it still returns normally, unless no directory can
    be determined or the context is not in object mode, in which cases it
    raises before anything is touched. *)
Theorem unknown_format_exports_nothing h directory fl ft pre w :
  ft ∉ file_type_items →
  let r := batch_export_meshes h directory fl ft pre w in
  exported (snd r) = exported w ∧
  scene (snd r) = scene w ∧
  (fst r = Ok tt ∨
   (directory = "" ∧ os_path_dirname h (data_filepath (scene w)) = "" ∧
    r = (Raise (Exception "Blend file is not saved"), w)) ∨
   (mode (scene w) ≠ "OBJECT" ∧ r = (Raise poll_failed, w))).
Proof.
  intros Hft. cbv zeta.
  assert (Hnone : spec_format ft = None).
  { unfold spec_format. unfold file_type_items in Hft.
    repeat (case_decide as Hd;
            [exfalso; apply Hft; subst ft; rewrite !elem_of_cons; auto 10 | clear Hd]).
    done. }
  destruct (resolve_basedir_cases h directory w) as [(b & _ & Hb & _)|(Hd & Hdir & Hr)].
  - destruct (decide (mode (scene w) = "OBJECT")) as [Hmode|Hmode]; cycle 1.
    { rewrite (batch_export_meshes_poll_fails _ _ _ _ _ _ _ Hb Hmode). simpl.
      split_and!; [done|done|]. right. by right. }
    destruct (batch_export_meshes_spec h directory fl ft pre w b Hb)
      as (calls & Hexp & Hpre & _ & Hok & Hfin).
    assert (Hexpected : spec_calls h b fl ft pre (set_select false <$> objects (scene w))
                          (data_filepath (scene w)) (selected_objects (scene w)) = []).
    { destruct (spec_calls _ _ _ _ _ _ _ _) as [|c cs] eqn:Hcs; [done|].
      assert (Hc : c ∈ c :: cs) by left. rewrite <- Hcs in Hc.
      apply elem_of_spec_calls in Hc as (i & oD & e & ext & fmt & _ & _ & _ & Hsome & _).
      congruence. }
    rewrite Hexpected in Hpre. apply prefix_nil_inv in Hpre as ->.
    assert (Hdone : fst (batch_export_meshes h directory fl ft pre w) = Ok tt).
    { apply Hfin; [done|]. by intros c ?%elem_of_nil. }
    destruct (Hok Hdone) as [_ Hsc]. rewrite app_nil_r in Hexp.
    split_and!; [done|done|by left].
  - rewrite (batch_export_meshes_abort _ _ _ _ _ _ _ Hr). simpl.
    split_and!; [done|done|]. right. by left.
Qed.

Lemma unknown_format_exports_nothing_witness :
  let r := batch_export_meshes picky_host "/out" true "STL" "SM_" (init_world meshes_scene) in
  exported (snd r) = [] ∧
  scene (snd r) = meshes_scene ∧
  (fst r = Ok tt ∨
   ("/out" = "" ∧ Posix.dirname "/home/user/project.blend" = "" ∧
    r = (Raise (Exception "Blend file is not saved"), init_world meshes_scene)) ∨
   ("OBJECT" ≠ "OBJECT" ∧ r = (Raise poll_failed, init_world meshes_scene))).
Proof.
  apply (unknown_format_exports_nothing picky_host "/out" true "STL" "SM_"
           (init_world meshes_scene)).
  vm_compute. intros H. repeat (apply elem_of_cons in H as [H|H]; [discriminate|]).
  by apply elem_of_nil in H.
Defined.

(** X8.  The exporter, the extension and the options follow the format:
    every invocation passes [use_selection=True]; FBX goes to the FBX
    exporter with ".fbx", OBJ to the OBJ exporter with ".obj", both
    without an export variant, and GLTF to the glTF exporter with ".gltf"
    and [export_format='GLTF_SEPARATE']. *)
Theorem exporter_follows_format h directory fl ft pre w :
  let r := batch_export_meshes h directory fl ft pre w in
  ∃ calls,
    exported (snd r) = (exported w ++ calls)%list ∧
    ∀ c, c ∈ calls →
      use_selection c = true ∧
      (ft = "FBX" → exporter c = export_scene_fbx ∧ export_format c = None ∧
                     ∃ stem, call_filepath c = (stem ++ ".fbx")%string) ∧
      (ft = "OBJ" → exporter c = export_scene_obj ∧ export_format c = None ∧
                     ∃ stem, call_filepath c = (stem ++ ".obj")%string) ∧
      (ft = "GLTF" → exporter c = export_scene_gltf ∧
                      export_format c = Some "GLTF_SEPARATE" ∧
                      ∃ stem, call_filepath c = (stem ++ ".gltf")%string).
Proof.
  cbv zeta.
  destruct (resolve_basedir_cases h directory w) as [(b & _ & Hb & _)|(_ & _ & Hr)].
  - destruct (batch_export_meshes_spec h directory fl ft pre w b Hb)
      as (calls & Hexp & [rest Hpre] & _).
    exists calls. split; [done|]. intros c Hc.
    assert (Hin : c ∈ spec_calls h b fl ft pre (set_select false <$> objects (scene w))
                      (data_filepath (scene w)) (selected_objects (scene w))).
    { rewrite Hpre. apply elem_of_app. by left. }
    apply elem_of_spec_calls in Hin as (i & oD & e & ext & fmt & _ & _ & _ & Hft & ->).
    simpl. split_and!; [done|intros ->..]; injection Hft as <- <- <-; eauto.
  - rewrite (batch_export_meshes_abort _ _ _ _ _ _ _ Hr). exists []. simpl.
    rewrite app_nil_r. split; [done|]. by intros c ?%elem_of_nil.
Qed.

(** ** What a run keeps at every moment *)

Lemma scenes_keep_commit P H0 f w :
  scenes_keep P H0 w → P (f (scene w)) → scenes_keep P H0 (commit f w).
Proof.
  intros (Hnow & new & Hhist & Hnew) Hf. split; [done|].
  exists (f (scene w) :: new). simpl. rewrite Hhist. split; [done|].
  intros s [->|Hs]%elem_of_cons; auto.
Qed.

Lemma scenes_keep_frame P H0 w w' :
  scene w' = scene w → history w' = history w →
  scenes_keep P H0 w → scenes_keep P H0 w'.
Proof. unfold scenes_keep. by intros -> ->. Qed.

Lemma fmap_alter_same {B} (g : Object → B) f i (l : list Object) :
  (∀ o, g (f o) = g o) → g <$> alter f i l = g <$> l.
Proof.
  intros Hg. apply list_eq. intros j. rewrite !list_lookup_fmap.
  destruct (decide (i = j)) as [->|Hne].
  - rewrite list_lookup_alter_eq. destruct (l !! j); simpl; [|done]. by rewrite Hg.
  - by rewrite list_lookup_alter_ne.
Qed.

Section Frame.

(** A property of scenes that selecting, moving and activating the
    objects of [sel] cannot break. *)
Variables (P : Scene → Prop) (sel : list ref).

Hypothesis P_select :
  ∀ b i s, i ∈ sel → P s → P (with_objects (alter (set_select b) i) s).
Hypothesis P_locate :
  ∀ v i s, i ∈ sel → P s → P (with_objects (alter (set_location v) i) s).
Hypothesis P_active : ∀ a s, P s → P (with_active a s).

Lemma select_set_keeps H0 i b w :
  i ∈ sel → scenes_keep P H0 w → scenes_keep P H0 (snd (select_set i b w)).
Proof.
  intros Hi Hk. destruct (objects (scene w) !! i) as [o|] eqn:Ho.
  - rewrite (select_set_run _ _ _ _ Ho). apply scenes_keep_commit; [done|].
    apply P_select; [done|apply Hk].
  - unfold select_set. by rewrite bind_run, (deref_dangling _ _ Ho).
Qed.

Lemma loop_body_keeps H0 h basedir fl ft pre i w :
  i ∈ sel → scenes_keep P H0 w →
  scenes_keep P H0 (snd (loop_body h basedir fl ft pre i w)).
Proof.
  intros Hi Hk. destruct (objects (scene w) !! i) as [o|] eqn:Ho.
  - destruct (eligible o) eqn:Hel.
    + rewrite (loop_body_run _ _ _ _ _ _ _ _ Ho Hel). cbv zeta iota.
      set (w1 := commit (with_objects (alter (set_select true) i)) w).
      assert (H1 : scenes_keep P H0 w1).
      { apply scenes_keep_commit; [done|]. apply P_select; [done|apply Hk]. }
      clearbody w1.
      set (w2 := if fl then commit (with_objects (alter (set_location origin) i)) w1 else w1).
      assert (H2 : scenes_keep P H0 w2).
      { unfold w2. destruct fl; [|done].
        apply scenes_keep_commit; [done|]. apply P_locate; [done|apply H1]. }
      clearbody w2.
      set (w3 := commit (with_active (Some i)) w2).
      assert (H3 : scenes_keep P H0 w3).
      { apply scenes_keep_commit; [done|]. apply P_active, H2. }
      clearbody w3.
      pose proof (export_as_frame h ft (os_path_join h basedir (pre ++ clean_name h (name o))) w3)
        as (Hsc & Hhi & _).
      destruct (export_as h ft _ w3) as [[[]|e] w4]; simpl in Hsc, Hhi;
        pose proof (scenes_keep_frame P H0 w3 w4 Hsc Hhi H3) as H4; [|done].
      simpl snd. apply scenes_keep_commit.
      * apply scenes_keep_commit; [done|]. apply P_select; [done|apply H4].
      * apply P_locate; [done|]. apply P_select; [done|apply H4].
    + by rewrite (loop_body_skip _ _ _ _ _ _ _ _ Ho Hel).
  - destruct (loop_body_dangling h basedir fl ft pre i w Ho) as [e ->]. done.
Qed.

Lemma batch_export_meshes_keeps H0 h d fl ft pre w :
  sel = selected_objects (scene w) →
  P (with_objects (fmap (set_select false)) (scene w)) →
  scenes_keep P H0 w →
  scenes_keep P H0 (snd (batch_export_meshes h d fl ft pre w)).
Proof.
  intros Hsel Hdes Hk.
  destruct (resolve_basedir_cases h d w) as [(b & _ & Hb & _)|(_ & _ & Hr)].
  - destruct (decide (mode (scene w) = "OBJECT")) as [Hm|Hm]; cycle 1.
    { by rewrite (batch_export_meshes_poll_fails _ _ _ _ _ _ _ Hb Hm). }
    rewrite (batch_export_meshes_run _ _ _ _ _ _ _ Hb Hm). cbv zeta.
    set (wd := commit _ w).
    assert (Hd : scenes_keep P H0 wd) by (by apply scenes_keep_commit).
    pose proof (for_each_inv (scenes_keep P H0) (selected_objects (scene w))
                  (loop_body h b fl ft pre) wd Hd) as Hloop.
    assert (H1 : scenes_keep P H0
                   (snd (for_each (selected_objects (scene w)) (loop_body h b fl ft pre) wd))).
    { apply Hloop. intros i w0 Hi Hw0. apply loop_body_keeps; [by rewrite Hsel|done]. }
    destruct (for_each _ (loop_body h b fl ft pre) wd) as [[[]|e] w1]; simpl in H1; [|done].
    apply for_each_inv.
    + apply scenes_keep_commit; [done|]. apply P_active, H1.
    + intros i w0 Hi Hw0. apply select_set_keeps; [by rewrite Hsel|done].
  - by rewrite (batch_export_meshes_abort _ _ _ _ _ _ _ Hr).
Qed.

End Frame.

(** X9.  The routine touches only the objects of the selection: in every
    scene it produces along the way and in the scene it leaves, finished
    or not, every object that was not selected is exactly as it was
    (name, type, location, not selected). *)
Theorem unselected_objects_never_touched h directory fl ft pre w :
  let r := batch_export_meshes h directory fl ft pre w in
  ∃ new,
    history (snd r) = (new ++ history w)%list ∧
    ∀ s, s ∈ scene (snd r) :: new →
      ∀ j, j ∉ selected_objects (scene w) → objects s !! j = objects (scene w) !! j.
Proof.
  cbv zeta.
  set (P := λ s : Scene,
         ∀ j, j ∉ selected_objects (scene w) → objects s !! j = objects (scene w) !! j).
  assert (Halter : ∀ f i s, i ∈ selected_objects (scene w) → P s →
                            P (with_objects (alter f i) s)).
  { intros f i s Hi Hs j Hj. simpl. rewrite list_lookup_alter_ne; [by apply Hs|].
    intros ->. done. }
  assert (Hkeep : scenes_keep P (history w) (snd (batch_export_meshes h directory fl ft pre w))).
  { apply (batch_export_meshes_keeps P (selected_objects (scene w))).
    - intros b. apply Halter.
    - intros v. apply Halter.
    - intros a s Hs. exact Hs.
    - done.
    - intros j Hj. simpl. rewrite list_lookup_fmap.
      destruct (objects (scene w) !! j) as [o|] eqn:Ho; [|done]. simpl. f_equal.
      destruct (select o) eqn:Hsel.
      + exfalso. apply Hj, elem_of_selected_objects. by exists o.
      + destruct o; simpl in *. by subst.
    - split; [by intros j _|]. exists []. split; [done|]. by intros s ?%elem_of_nil. }
  destruct Hkeep as (Hnow & new & Hhist & Hnew).
  exists new. split; [done|]. intros s [->|Hs]%elem_of_cons; [exact Hnow | by apply Hnew].
Qed.

(** X10.  The routine never renames or retypes an object, never adds or
    removes one, and never touches the project path: in every scene it
    produces along the way and in the scene it leaves, finished or not,
    the names and the types of the objects, their number and
    [bpy.data.filepath] are as at the start. *)
Theorem names_and_types_never_change h directory fl ft pre w :
  let r := batch_export_meshes h directory fl ft pre w in
  ∃ new,
    history (snd r) = (new ++ history w)%list ∧
    ∀ s, s ∈ scene (snd r) :: new →
      name <$> objects s = name <$> objects (scene w) ∧
      type <$> objects s = type <$> objects (scene w) ∧
      length (objects s) = length (objects (scene w)) ∧
      data_filepath s = data_filepath (scene w).
Proof.
  cbv zeta.
  set (P := λ s : Scene,
         name <$> objects s = name <$> objects (scene w) ∧
         type <$> objects s = type <$> objects (scene w) ∧
         length (objects s) = length (objects (scene w)) ∧
         data_filepath s = data_filepath (scene w)).
  assert (Halter : ∀ f i s, (∀ o, name (f o) = name o) → (∀ o, type (f o) = type o) →
                            P s → P (with_objects (alter f i) s)).
  { intros f i s Hn Ht (Hname & Htype & Hlen & Hfp). unfold P. simpl.
    rewrite !fmap_alter_same by done. by rewrite length_alter. }
  assert (Hkeep : scenes_keep P (history w) (snd (batch_export_meshes h directory fl ft pre w))).
  { apply (batch_export_meshes_keeps P (selected_objects (scene w))).
    - intros b i s _. by apply Halter.
    - intros v i s _. by apply Halter.
    - intros a s Hs. exact Hs.
    - done.
    - unfold P. simpl. rewrite <- !list_fmap_compose, length_fmap. done.
    - split; [done|]. exists []. split; [done|]. by intros s ?%elem_of_nil. }
  destruct Hkeep as (Hnow & new & Hhist & Hnew).
  exists new. split; [done|]. intros s [->|Hs]%elem_of_cons; [exact Hnow | by apply Hnew].
Qed.

(** ** The operator as a whole *)

Lemma batch_export_meshes_reports h d fl ft pre w :
  reports (snd (batch_export_meshes h d fl ft pre w)) = reports w.
Proof.
  destruct (resolve_basedir_cases h d w) as [(b & _ & Hb & _)|(_ & _ & Hr)].
  - by destruct (batch_export_meshes_spec h d fl ft pre w b Hb) as (calls & _ & _ & Hrep & _).
  - by rewrite (batch_export_meshes_abort _ _ _ _ _ _ _ Hr).
Qed.

Lemma batch_export_meshes_finished h d fl ft pre w w' :
  batch_export_meshes h d fl ft pre w = (Ok tt, w') →
  scene w' = scene w ∧
  ∃ b, resolve_basedir h d w = (Ok b, w) ∧
       exported w' =
         (exported w ++
          spec_calls h b fl ft pre (set_select false <$> objects (scene w))
            (data_filepath (scene w)) (selected_objects (scene w)))%list ∧
       ∀ c, c ∈ spec_calls h b fl ft pre (set_select false <$> objects (scene w))
                  (data_filepath (scene w)) (selected_objects (scene w)) →
            exporter_finishes h c = true.
Proof.
  intros Hrun.
  destruct (resolve_basedir_cases h d w) as [(b & _ & Hb & _)|(_ & _ & Hr)].
  - assert (Hm : mode (scene w) = "OBJECT").
    { destruct (decide (mode (scene w) = "OBJECT")) as [Hm|Hm]; [done|].
      rewrite (batch_export_meshes_poll_fails _ _ _ _ _ _ _ Hb Hm) in Hrun. discriminate. }
    destruct (batch_export_meshes_spec h d fl ft pre w b Hb)
      as (calls & Hexp & _ & _ & Hok & _).
    destruct (batch_export_meshes_outcome h d fl ft pre w b Hb Hm) as [Hfin _].
    rewrite Hrun in Hexp, Hok, Hfin. simpl in Hexp, Hok, Hfin.
    destruct (Hok eq_refl) as [-> Hsc]. split; [done|]. exists b. auto.
  - rewrite (batch_export_meshes_abort _ _ _ _ _ _ _ Hr) in Hrun. discriminate.
Qed.

(** X11.  [execute] tells the user something exactly when the directory
    is not valid: then it appends the one warning, and otherwise, however
    the export goes, it reports nothing. *)
Theorem execute_warns_only_on_invalid_directory h self w :
  reports (snd (execute h self w)) =
    if os_path_isdir h (execute_directory (filepath self))
    then reports w
    else (reports w ++ [("WARNING", "Please select a valid path")])%list.
Proof.
  unfold execute. rewrite bind_run.
  destruct (os_path_isdir h (execute_directory (filepath self))); cbn [negb]; [|done].
  pose proof (batch_export_meshes_reports h (execute_directory (filepath self))
                (freeze_locations self) (file_type self) (mesh_name_prefix self) w) as Hrep.
  by destruct (batch_export_meshes h _ _ _ _ w) as [[[]|e] w1].
Qed.

(** X12.  Whenever [execute] returns, it returns [{'FINISHED'}] and the
    scene is the one it was called in: selection, active object and
    locations included, whether it exported or only warned. *)
Theorem execute_returns_finished_scene_unchanged h self w res w' :
  execute h self w = (Ok res, w') →
  res = ["FINISHED"] ∧ scene w' = scene w.
Proof.
  unfold execute. rewrite bind_run.
  destruct (os_path_isdir h (execute_directory (filepath self))); cbn [negb].
  - destruct (batch_export_meshes h _ _ _ _ w) as [[[]|e] w1] eqn:Hrun; [|done].
    intros [= <- <-]. split; [done|].
    by destruct (batch_export_meshes_finished _ _ _ _ _ _ _ Hrun) as [? _].
  - by intros [= <- <-].
Qed.

Lemma execute_returns_finished_scene_unchanged_witness :
  let r := execute (Posix.host ["C:\out"])
             (mkBatchExport "C:\out\ignored_filename.fbx" true "SM_" "FBX")
             (init_world meshes_scene) in
  ["FINISHED"] = ["FINISHED"] ∧ scene (snd r) = meshes_scene.
Proof.
  apply (execute_returns_finished_scene_unchanged (Posix.host ["C:\out"])
           (mkBatchExport "C:\out\ignored_filename.fbx" true "SM_" "FBX")
           (init_world meshes_scene) ["FINISHED"]
           (snd (execute (Posix.host ["C:\out"])
                   (mkBatchExport "C:\out\ignored_filename.fbx" true "SM_" "FBX")
                   (init_world meshes_scene)))).
  vm_compute; reflexivity.
Defined.

(** X14.  On a host where the empty path is not a directory, a valid
    directory makes [execute] export into that very directory (the chosen
    path stripped of its file part), never beside the project file:
    every exporter invocation writes to the directory joined with prefix
    + sanitized name of an eligible selected object, followed by the
    extension of the operator's format. *)
Theorem execute_exports_into_chosen_directory h self w :
  os_path_isdir h "" = false →
  os_path_isdir h (execute_directory (filepath self)) = true →
  let r := execute h self w in
  ∃ calls,
    exported (snd r) = (exported w ++ calls)%list ∧
    ∀ c, c ∈ calls →
      ∃ i o, i ∈ selected_objects (scene w) ∧ objects (scene w) !! i = Some o ∧
             eligible o = true ∧
             call_filepath c =
               (os_path_join h (execute_directory (filepath self))
                  (mesh_name_prefix self ++ clean_name h (name o))
                ++ spec_extension (file_type self))%string.
Proof.
  intros Hempty Hdir. cbv zeta.
  set (d := execute_directory (filepath self)) in *.
  assert (Hne : d ≠ "") by (intros Heq; congruence).
  assert (Hb : resolve_basedir h d w = (Ok d, w)).
  { destruct (resolve_basedir_cases h d w) as [(b & _ & Hb & Heq)|(? & _)]; [|done].
    rewrite decide_False in Heq by done. by subst b. }
  destruct (batch_export_meshes_spec h d (freeze_locations self) (file_type self)
              (mesh_name_prefix self) w d Hb) as (calls & Hexp & [rest Hpre] & _).
  exists calls. split.
  - unfold execute. fold d. rewrite bind_run, Hdir. cbn [negb].
    by destruct (batch_export_meshes h d _ _ _ w) as [[[]|e] w1].
  - intros c Hc.
    assert (Hin : c ∈ spec_calls h d (freeze_locations self) (file_type self)
                        (mesh_name_prefix self) (set_select false <$> objects (scene w))
                        (data_filepath (scene w)) (selected_objects (scene w))).
    { rewrite Hpre. apply elem_of_app. by left. }
    apply elem_of_spec_calls in Hin as (i & oD & e & ext & fmt & Hi & HoD & Hel & Hft & ->).
    rewrite list_lookup_fmap in HoD.
    destruct (objects (scene w) !! i) as [o|] eqn:Ho; [|done].
    injection HoD as <-. exists i, o. unfold spec_extension. rewrite Hft. done.
Qed.

Lemma execute_exports_into_chosen_directory_witness :
  let h := Posix.host ["C:\out"] in
  let self := mkBatchExport "C:\out\ignored_filename.fbx" false "SM_" "GLTF" in
  let r := execute h self (init_world meshes_scene) in
  ∃ calls,
    exported (snd r) = ([] ++ calls)%list ∧
    ∀ c, c ∈ calls →
      ∃ i o, i ∈ selected_objects meshes_scene ∧ objects meshes_scene !! i = Some o ∧
             eligible o = true ∧
             call_filepath c =
               (Posix.join "C:\out" ("SM_" ++ Posix.clean (name o)) ++ ".gltf")%string.
Proof.
  apply (execute_exports_into_chosen_directory (Posix.host ["C:\out"])
           (mkBatchExport "C:\out\ignored_filename.fbx" false "SM_" "GLTF")
           (init_world meshes_scene)); reflexivity.
Defined.

(** Outside object mode the routine stops at [select_all]: here the light
    and the cube are selected while the active mesh is being edited, and
    the run raises with the world as it was. *)
Example edit_mode_run :
  batch_export_meshes out_host "/out" true "FBX" "SM_" (init_world edit_scene) =
    (Raise poll_failed, init_world edit_scene).
Proof. reflexivity. Qed.
